(** * Conversation orchestration of the Todo chatbot backend

    A shallow embedding of [backend/src/api/chat.py]: the conversation
    registry ([get_or_create_conversation]), the history projector
    ([load_conversation_history]), the message store ([save_message]), the
    turn orchestrator ([chat]) and the conversation directory
    ([list_conversations], [get_conversation_messages],
    [delete_conversation]).

    The database is an explicit value threaded through every operation.
    Each helper of the source opens its own session and commits once, so
    each helper is one atomic transition of the store: it either commits
    all of its writes or, when the commit raises, none of them. *)

From Stdlib Require Import ZArith NArith String Ascii Sorted Permutation Lia.
From stdpp Require Import base option list sorting gmap.

#[local] Set Warnings "-register-all".
Local Open Scope Z_scope.

(* ===================================================================== *)
(** * Python values *)
(* ===================================================================== *)

(** A Python [str] is a sequence of Unicode code points. *)
Abbreviation str := (list N) (only parsing).

(** A [uuid.UUID]; only equality of identifiers matters. *)
Abbreviation UUID := N (only parsing).

(** A [datetime]; only the order of instants matters. *)
Abbreviation datetime := Z (only parsing).

(** The code points of a literal. *)
Definition str_of (s : string) : str := N_of_ascii <$> list_ascii_of_string s.

(** [str.isspace] on one code point: the characters Python's [str.strip()]
    removes when called without an argument. *)
Definition isspace (c : N) : bool :=
  (((9 <=? c) && (c <=? 13)) || ((28 <=? c) && (c <=? 32))
   || (c =? 133) || (c =? 160) || (c =? 5760)
   || ((8192 <=? c) && (c <=? 8202))
   || (c =? 8232) || (c =? 8233) || (c =? 8239) || (c =? 8287)
   || (c =? 12288))%N.

Fixpoint lstrip (s : str) : str :=
  match s with
  | [] => []
  | c :: s' => if isspace c then lstrip s' else s
  end.

Definition rstrip (s : str) : str := reverse (lstrip (reverse s)).

(** [s.strip()] *)
Definition strip (s : str) : str := rstrip (lstrip s).

(** JSON-serialisable values: tool-call arguments and results. *)
Inductive json : Type :=
| JNull
| JBool (b : bool)
| JNum (n : Z)
| JStr (s : str)
| JList (l : list json)
| JDict (d : list (str * json)).

(** The exceptions that travel through the endpoint. [HTTPException] is
    FastAPI's; [IntegrityError] is what a commit raises on a duplicate
    primary key; [Error] stands for any other instance of [Exception]. *)
Inductive exn : Type :=
| HTTPException (status_code : Z) (detail : str)
| IntegrityError
| Error (info : str).

(* ===================================================================== *)
(** * A state monad with exceptions *)
(* ===================================================================== *)

Inductive outcome (A : Type) : Type :=
| Return (a : A)
| Raise (e : exn).
Arguments Return {A} a.
Arguments Raise {A} e.

(** A computation over a store [S]: writes that were committed before an
    exception stay committed, so the store is returned in both cases. *)
Definition M (S A : Type) : Type := S -> outcome A * S.

Definition ret {S A} (a : A) : M S A := fun s => (Return a, s).

Definition raise {S A} (e : exn) : M S A := fun s => (Raise e, s).

Definition bind {S A B} (c : M S A) (k : A -> M S B) : M S B :=
  fun s =>
    match c s with
    | (Return a, s') => k a s'
    | (Raise e, s') => (Raise e, s')
    end.

(** [try: c except e: h e] *)
Definition try_except {S A} (c : M S A) (h : exn -> M S A) : M S A :=
  fun s =>
    match c s with
    | (Return a, s') => (Return a, s')
    | (Raise e, s') => h e s'
    end.

Declare Scope py_scope.
Delimit Scope py_scope with py.
Notation "x <- c ;; k" := (bind c (fun x => k))
  (at level 100, c at next level, right associativity) : py_scope.
Notation "c ;; k" := (bind c (fun _ => k))
  (at level 100, right associativity) : py_scope.

(* ===================================================================== *)
(** * ORDER BY *)
(* ===================================================================== *)

(** [ORDER BY key ASC] as a stable insertion sort: rows with equal keys
    keep their insertion order. *)
Fixpoint insert_by {A} (key : A -> Z) (x : A) (l : list A) : list A :=
  match l with
  | [] => [x]
  | y :: l' => if key x <=? key y then x :: l else y :: insert_by key x l'
  end.

Definition order_by {A} (key : A -> Z) (l : list A) : list A :=
  foldr (insert_by key) [] l.

(** [ORDER BY key DESC] *)
Definition order_by_desc {A} (key : A -> Z) (l : list A) : list A :=
  order_by (fun x => - key x) l.

(* ===================================================================== *)
(** * The models ([src.models]) *)
(* ===================================================================== *)

(** Modelled from the spec: the enumeration [MessageRole] of [src.models];
    the spec gives the closed set of roles user, assistant, tool-system. *)
Inductive MessageRole : Type := USER | ASSISTANT | TOOL_SYSTEM.

#[global] Instance MessageRole_eq_dec : EqDecision MessageRole.
Proof. solve_decision. Defined.

(** Modelled from the spec: [MessageRole.value], the string of a role. *)
Definition value (r : MessageRole) : str :=
  match r with
  | USER => str_of "user"
  | ASSISTANT => str_of "assistant"
  | TOOL_SYSTEM => str_of "tool-system"
  end.

Module Conversation.
(** Modelled from the spec: the [Conversation] table of [src.models],
    [conversations(id, owner, created_at, updated_at)]. *)
Record t : Type := mk {
  id : UUID;
  user_id : str;
  created_at : datetime;
  updated_at : datetime
}.

(** Modelled from the spec: the row [Conversation(user_id=user_id)], whose
    defaults are a fresh id and [created_at = updated_at = now]; [uuid4] is
    the identifier drawn and [now] the clock reading. *)
Definition new (now : datetime) (uuid4 : UUID) (user_id : str) : t :=
  mk uuid4 user_id now now.

(** Modelled from the spec: [Conversation.touch()], which "advances
    [updated_at] to now"; [now] is the clock reading of the call. *)
Definition touch (now : datetime) (c : t) : t :=
  mk (id c) (user_id c) (created_at c) now.

(** The columns of a row other than its primary key. *)
Record row : Type := mk_row {
  row_user_id : str;
  row_created_at : datetime;
  row_updated_at : datetime
}.

Definition to_row (c : t) : row :=
  mk_row (user_id c) (created_at c) (updated_at c).

Definition of_row (i : UUID) (r : row) : t :=
  mk i (row_user_id r) (row_created_at r) (row_updated_at r).
End Conversation.

(** The dict [{"tool_name": .., "arguments": .., "result": ..}] stored
    with an assistant message. *)
Record tool_call_dict : Type := mk_tool_call_dict {
  d_tool_name : str;
  d_arguments : list (str * json);
  d_result : json
}.

Module Message.
(** Modelled from the spec: the [Message] table of [src.models],
    [messages(id, conversation_id, role, content, tool_calls, created_at)]
    with a nullable [tool_calls]; a new row takes a fresh id and the clock
    reading as [created_at]. *)
Record t : Type := mk {
  id : UUID;
  conversation_id : UUID;
  role : MessageRole;
  content : str;
  tool_calls : option (list tool_call_dict);
  created_at : datetime
}.
End Message.

(* ===================================================================== *)
(** * The store *)
(* ===================================================================== *)

(** The two tables. [conversations] is keyed by its primary key; [messages]
    lists the rows in insertion order. No foreign key is enforced: the
    default engine of [src/db/__init__.py] is SQLite without the
    foreign-key pragma. *)
Record DB : Type := mk_DB {
  conversations : gmap UUID Conversation.row;
  messages : list Message.t
}.

Definition empty_DB : DB := mk_DB ∅ [].

(** [select(Conversation).where(Conversation.id == cid)] with
    [scalar_one_or_none()]. *)
Definition select_conversation (d : DB) (cid : UUID) : option Conversation.t :=
  Conversation.of_row cid <$> conversations d !! cid.

(** [select(Conversation).where(Conversation.id == cid,
    Conversation.user_id == uid)] with [scalar_one_or_none()]. *)
Definition select_conversation_of (d : DB) (cid : UUID) (uid : str)
  : option Conversation.t :=
  match select_conversation d cid with
  | Some c => if decide (Conversation.user_id c = uid) then Some c else None
  | None => None
  end.

(** [select(Message).where(Message.conversation_id == cid)] *)
Definition select_messages (d : DB) (cid : UUID) : list Message.t :=
  filter (fun m => Message.conversation_id m = cid) (messages d).

(** Does a message row with this primary key exist? *)
Definition message_id_used (d : DB) (i : UUID) : bool :=
  bool_decide (i ∈ Message.id <$> messages d).

(* ===================================================================== *)
(** * Helper functions of [chat.py] *)
(* ===================================================================== *)

(** [get_or_create_conversation(user_id, conversation_id)]. [now] is the
    clock reading and [uuid4] the identifier drawn for the row
    [Conversation(user_id=user_id)]. A [UUID] object is always truthy, so
    [if conversation_id:] tests for [None]. The commit of the new row
    raises when its primary key is taken. *)
Definition get_or_create_conversation (now : datetime) (uuid4 : UUID)
    (user_id : str) (conversation_id : option UUID) : M DB Conversation.t :=
  fun d =>
    let create :=
      let conversation := Conversation.new now uuid4 user_id in
      match conversations d !! uuid4 with
      | Some _ => (Raise IntegrityError, d)
      | None =>
          (Return conversation,
           mk_DB (<[uuid4 := Conversation.to_row conversation]> (conversations d))
                 (messages d))
      end in
    match conversation_id with
    | Some cid =>
        match select_conversation_of d cid user_id with
        | Some conversation => (Return conversation, d)
        | None => create
        end
    | None => create
    end.

(** One [{"role": .., "content": ..}] dict of the projected history. *)
Record history_entry : Type := mk_history_entry {
  h_role : str;
  h_content : str
}.

Definition history_entry_of (msg : Message.t) : history_entry :=
  mk_history_entry (value (Message.role msg)) (Message.content msg).

(** [load_conversation_history(conversation_id)] *)
Definition load_conversation_history (conversation_id : UUID)
  : M DB (list history_entry) :=
  fun d =>
    let messages :=
      order_by Message.created_at (select_messages d conversation_id) in
    (Return (history_entry_of <$> messages), d).

(** [save_message(conversation_id, role, content, tool_calls)]. [now] is the
    clock reading for the row's [created_at], [touch_now] the one taken by
    [conversation.touch()], [uuid4] the identifier drawn for the row. The
    insert and the touch are committed together; the commit raises when
    the message's primary key is taken, and then nothing is written. *)
Definition save_message (now touch_now : datetime) (uuid4 : UUID)
    (conversation_id : UUID) (role : MessageRole) (content : str)
    (tool_calls : option (list tool_call_dict)) : M DB Message.t :=
  fun d =>
    let message :=
      Message.mk uuid4 conversation_id role content tool_calls now in
    let conversations' :=
      match select_conversation d conversation_id with
      | Some conversation =>
          <[conversation_id :=
              Conversation.to_row (Conversation.touch touch_now conversation)]>
            (conversations d)
      | None => conversations d
      end in
    if message_id_used d uuid4 then (Raise IntegrityError, d)
    else (Return message, mk_DB conversations' (messages d ++ [message])).

(* ===================================================================== *)
(** * The agent collaborator and the request/response models *)
(* ===================================================================== *)

Module ToolCall.
(** One tool call reported by the agent. *)
Record t : Type := mk {
  tool_name : str;
  arguments : list (str * json);
  result : json
}.
End ToolCall.

Module AgentResponse.
Record t : Type := mk {
  content : str;
  tool_calls : list ToolCall.t
}.
End AgentResponse.

Module ToolCallResponse.
Record t : Type := mk {
  tool_name : str;
  arguments : list (str * json);
  result : json
}.
End ToolCallResponse.

Module ChatRequest.
Record t : Type := mk {
  message : str;
  conversation_id : option UUID
}.
End ChatRequest.

Module ChatResponse.
Record t : Type := mk {
  conversation_id : UUID;
  response : str;
  tool_calls : list ToolCallResponse.t
}.
End ChatResponse.

(** One invocation [run_agent(user_id, message, history)]. *)
Record agent_call : Type := mk_agent_call {
  call_user_id : str;
  call_message : str;
  call_history : list history_entry
}.

(** What a turn acts on: the store, and the record of the calls made to
    the agent (a ghost log, so that the arguments of a call can be stated). *)
Record World : Type := mk_World {
  db : DB;
  agent_calls : list agent_call
}.

(** Run a helper against the store of the world. *)
Definition with_db {A} (c : M DB A) : M World A :=
  fun w =>
    let (r, d') := c (db w) in (r, mk_World d' (agent_calls w)).

(** The clock readings and identifiers a turn draws, in program order. *)
Record turn_env : Type := mk_turn_env {
  conv_now : datetime;
  conv_uuid : UUID;
  user_msg_now : datetime;
  user_touch_now : datetime;
  user_msg_uuid : UUID;
  asst_msg_now : datetime;
  asst_touch_now : datetime;
  asst_msg_uuid : UUID
}.

Definition detail_400 : str :=
  str_of "I didn't catch that. Could you tell me what you'd like to do with your tasks?".

Definition detail_500 : str :=
  str_of "I'm having trouble processing your request right now. Please try again.".

Definition tool_call_response_of (tc : ToolCall.t) : ToolCallResponse.t :=
  ToolCallResponse.mk
    (ToolCall.tool_name tc) (ToolCall.arguments tc) (ToolCall.result tc).

Definition tool_call_dict_of (tc : ToolCall.t) : tool_call_dict :=
  mk_tool_call_dict
    (ToolCall.tool_name tc) (ToolCall.arguments tc) (ToolCall.result tc).

Section Chat.

(** The agent collaborator [src.agent.todo_agent.run_agent]: a black box
    that returns a response or raises. It works on the task tables and
    never on conversations or messages. *)
Variable run_agent :
  str -> str -> list history_entry -> outcome AgentResponse.t.

Definition await_run_agent (user_id message : str)
    (history : list history_entry) : M World AgentResponse.t :=
  fun w =>
    (run_agent user_id message history,
     mk_World (db w)
       (agent_calls w ++ [mk_agent_call user_id message history])).

(** [except HTTPException: raise] and [except Exception as e: raise
    HTTPException(status_code=500, ..)]. *)
Definition chat_except {A} (e : exn) : M World A :=
  match e with
  | HTTPException _ _ => raise e
  | _ => raise (HTTPException 500 detail_500)
  end.

(** [POST /api/chat]. [current_user] carries [str(current_user.id)]. *)
Definition chat (env : turn_env) (request : ChatRequest.t)
    (current_user : str) : M World ChatResponse.t :=
  let user_id := current_user in
  let message := strip (ChatRequest.message request) in
  if bool_decide (message = []) then
    raise (HTTPException 400 detail_400)
  else
    try_except
      (conversation <-
         with_db (get_or_create_conversation (conv_now env) (conv_uuid env)
                    user_id (ChatRequest.conversation_id request)) ;;
       history <-
         with_db (load_conversation_history (Conversation.id conversation)) ;;
       with_db (save_message (user_msg_now env) (user_touch_now env)
                  (user_msg_uuid env)
                  (Conversation.id conversation) USER message None) ;;
       agent_response <- await_run_agent user_id message history ;;
       let tool_calls_response :=
         tool_call_response_of <$> AgentResponse.tool_calls agent_response in
       let tool_calls_data :=
         match AgentResponse.tool_calls agent_response with
         | [] => None
         | tcs => Some (tool_call_dict_of <$> tcs)
         end in
       with_db (save_message (asst_msg_now env) (asst_touch_now env)
                  (asst_msg_uuid env)
                  (Conversation.id conversation) ASSISTANT
                  (AgentResponse.content agent_response) tool_calls_data) ;;
       ret (ChatResponse.mk (Conversation.id conversation)
              (AgentResponse.content agent_response)
              tool_calls_response))%py
      chat_except.

End Chat.

(* ===================================================================== *)
(** * Conversation history endpoints *)
(* ===================================================================== *)

Module ConversationResponse.
(** [id] carries [str(conv.id)], the timestamps carry their
    [isoformat()]: both renderings are one-to-one. *)
Record t : Type := mk {
  id : UUID;
  created_at : datetime;
  updated_at : datetime;
  preview : str
}.
End ConversationResponse.

Module MessageResponse.
Record t : Type := mk {
  id : UUID;
  role : str;
  content : str;
  tool_calls : option (list tool_call_dict);
  created_at : datetime
}.
End MessageResponse.

Module ConversationMessagesResponse.
Record t : Type := mk {
  conversation_id : str;
  messages : list MessageResponse.t
}.
End ConversationMessagesResponse.

Definition not_found : exn :=
  HTTPException 404 (str_of "Conversation not found.").

(** [select(Conversation).where(Conversation.user_id == user_id)
    .order_by(Conversation.updated_at.desc())] *)
Definition select_conversations_of (d : DB) (user_id : str)
  : list Conversation.t :=
  order_by_desc Conversation.updated_at
    (filter (fun c => Conversation.user_id c = user_id)
       (uncurry Conversation.of_row <$> map_to_list (conversations d))).

(** [select(Message).where(Message.conversation_id == conv.id,
    Message.role == MessageRole.USER).order_by(Message.created_at.asc())
    .limit(1)] with [scalar_one_or_none()]. *)
Definition first_user_message (d : DB) (cid : UUID) : option Message.t :=
  head (order_by Message.created_at
          (filter (fun m => Message.conversation_id m = cid
                            ∧ Message.role m = USER)
             (messages d))).

(** The body of the loop of [list_conversations]. *)
Definition conversation_response (d : DB) (conv : Conversation.t)
  : ConversationResponse.t :=
  let first_msg := first_user_message d (Conversation.id conv) in
  let preview :=
    match first_msg with
    | Some m => take 80 (Message.content m)
    | None => str_of "New conversation"
    end in
  ConversationResponse.mk (Conversation.id conv)
    (Conversation.created_at conv) (Conversation.updated_at conv) preview.

(** [GET /api/conversations] *)
Definition list_conversations (current_user : str)
  : M DB (list ConversationResponse.t) :=
  fun d =>
    let user_id := current_user in
    let conversations := select_conversations_of d user_id in
    (Return (conversation_response d <$> conversations), d).

Definition message_response (msg : Message.t) : MessageResponse.t :=
  MessageResponse.mk (Message.id msg) (value (Message.role msg))
    (Message.content msg) (Message.tool_calls msg) (Message.created_at msg).

Section PathParameter.

(** How the id columns bind a Python [str] when a statement is executed.
    The two routes below declare their path parameter as [str] and compare
    the id columns with it as it is, where [chat] and its helpers pass
    [uuid.UUID] objects. The column type, declared in [src.models], turns
    the text into the identifier it compares with, or raises (a
    [StatementError]); the statement is then never run. *)
Variable bind_id : str -> outcome UUID.

(** [GET /api/conversations/{conversation_id}/messages]. A statement that
    raises leaves the session without a result. *)
Definition get_conversation_messages (conversation_id : str)
    (current_user : str) : M DB ConversationMessagesResponse.t :=
  fun d =>
    let user_id := current_user in
    match bind_id conversation_id with
    | Raise e => (Raise e, d)
    | Return cid =>
        match select_conversation_of d cid user_id with
        | None => (Raise not_found, d)
        | Some conversation =>
            let messages :=
              order_by Message.created_at (select_messages d cid) in
            (Return (ConversationMessagesResponse.mk conversation_id
                       (message_response <$> messages)), d)
        end
    end.

(** [DELETE /api/conversations/{conversation_id}]: every selected message
    and the conversation row are deleted in the session (each row by its
    primary key) and committed once. A statement that raises leaves the
    session without a commit. *)
Definition delete_conversation (conversation_id : str) (current_user : str)
  : M DB unit :=
  fun d =>
    let user_id := current_user in
    match bind_id conversation_id with
    | Raise e => (Raise e, d)
    | Return cid =>
        match select_conversation_of d cid user_id with
        | None => (Raise not_found, d)
        | Some conversation =>
            let msgs := select_messages d cid in
            (Return tt,
             mk_DB (delete (Conversation.id conversation) (conversations d))
                   (filter (fun m => Message.id m ∉ Message.id <$> msgs)
                      (messages d)))
        end
    end.

End PathParameter.

(* ===================================================================== *)
(** * Vocabulary of the properties *)
(* ===================================================================== *)

(** [cid] names a conversation of the store that [owner] owns. *)
Definition owned_by (d : DB) (cid : UUID) (owner : str) : Prop :=
  ∃ row, conversations d !! cid = Some row
         ∧ Conversation.row_user_id row = owner.

(** Ascending order of the sort keys. *)
Definition key_le {A} (key : A -> Z) (x y : A) : Prop := key x <= key y.

(** Chronological order of message rows. *)
Definition created_le (m1 m2 : Message.t) : Prop :=
  Message.created_at m1 <= Message.created_at m2.

(** Most recently active first. *)
Definition updated_ge (r1 r2 : ConversationResponse.t) : Prop :=
  ConversationResponse.updated_at r2 <= ConversationResponse.updated_at r1.

(** A user-role message of conversation [cid]. *)
Definition user_message_of (cid : UUID) (m : Message.t) : Prop :=
  Message.conversation_id m = cid ∧ Message.role m = USER.

(** [m] is an earliest user-role message of conversation [cid]. *)
Definition earliest_user_message (d : DB) (cid : UUID) (m : Message.t) : Prop :=
  m ∈ messages d ∧ user_message_of cid m
  ∧ ∀ m', m' ∈ messages d → user_message_of cid m' → created_le m m'.

(** What the preview of conversation [cid] has to be. *)
Definition preview_spec (d : DB) (cid : UUID) (p : str) : Prop :=
  ((∀ m, m ∈ messages d → ¬ user_message_of cid m)
   ∧ p = str_of "New conversation")
  ∨ (∃ m, earliest_user_message d cid m
          ∧ p = take 80 (Message.content m)
          ∧ (length p ≤ 80)%nat).


(** The user message a turn persists in conversation [cid]. *)
Definition turn_user_message (env : turn_env) (cid : UUID) (message : str)
  : Message.t :=
  Message.mk (user_msg_uuid env) cid USER message None (user_msg_now env).

(** What the caller of [chat] sees when the body of the [try] raised [e]. *)
Definition surfaced (e : exn) : exn :=
  match e with
  | HTTPException _ _ => e
  | _ => HTTPException 500 detail_500
  end.

(** The generic failure of the endpoint. *)
Definition generic_failure : exn := HTTPException 500 detail_500.

(** ** Sample data *)

Definition alice : str := str_of "alice".
Definition bob : str := str_of "bob".

Definition sample_env : turn_env :=
  mk_turn_env 10 7%N 11 12 100%N 13 14 101%N.

(** One conversation, owned by alice, holding one user message. *)
Definition sample_db : DB :=
  mk_DB {[ 1%N := Conversation.mk_row alice 1 2 ]}
        [Message.mk 50%N 1%N USER (str_of "hello there") None 2].

Definition sample_world : World := mk_World sample_db [].

Definition sample_request : ChatRequest.t :=
  ChatRequest.mk (str_of "  buy milk ") (Some 1%N).

Definition sample_tool_call : ToolCall.t :=
  ToolCall.mk (str_of "add_task")
    [(str_of "title", JStr (str_of "buy milk"))] (JBool true).

(** An agent that answers with one tool call. *)
Definition agent_tool (_ _ : str) (_ : list history_entry)
  : outcome AgentResponse.t :=
  Return (AgentResponse.mk (str_of "Added.") [sample_tool_call]).

(** An agent that fails with an ordinary exception. *)
Definition agent_error (_ _ : str) (_ : list history_entry)
  : outcome AgentResponse.t :=
  Raise (Error (str_of "upstream timeout")).

(** An agent that fails with an [HTTPException] of its own. *)
Definition agent_http (_ _ : str) (_ : list history_entry)
  : outcome AgentResponse.t :=
  Raise (HTTPException 418 (str_of "internal detail")).

(* ===================================================================== *)
(** * Task endpoints ([tasks.py]) *)
(* ===================================================================== *)

Module Task.
(** The columns of [Task] that [tasks.py] reads and writes. *)
Record t : Type := mk {
  id : UUID;
  user_id : str;
  title : str;
  is_completed : bool;
  created_at : datetime;
  updated_at : datetime
}.

(** The columns of a row other than its primary key. *)
Record row : Type := mk_row {
  row_user_id : str;
  row_title : str;
  row_is_completed : bool;
  row_created_at : datetime;
  row_updated_at : datetime
}.

Definition to_row (task : t) : row :=
  mk_row (user_id task) (title task) (is_completed task)
    (created_at task) (updated_at task).

Definition of_row (i : UUID) (r : row) : t :=
  mk i (row_user_id r) (row_title r) (row_is_completed r)
    (row_created_at r) (row_updated_at r).

(** [task.is_completed = False; task.updated_at = now] *)
Definition set_incomplete (now : datetime) (task : t) : t :=
  mk (id task) (user_id task) (title task) false (created_at task) now.

(** [task.updated_at = now] *)
Definition set_updated_at (now : datetime) (task : t) : t :=
  mk (id task) (user_id task) (title task) (is_completed task)
    (created_at task) now.
End Task.

(** The task table, keyed by its primary key. The task endpoints read and
    write no other table. *)
Abbreviation TaskDB := (gmap UUID Task.row) (only parsing).

Module TaskResponse.
(** [id] carries [str(task.id)], the timestamps their [isoformat()]. *)
Record t : Type := mk {
  id : UUID;
  title : str;
  is_completed : bool;
  created_at : datetime;
  updated_at : datetime
}.
End TaskResponse.

Module TasksListResponse.
Record t : Type := mk {
  tasks : list TaskResponse.t;
  total : Z;
  completed : Z;
  pending : Z
}.
End TasksListResponse.

Module UpdateTaskRequest.
Record t : Type := mk {
  title : option str;
  is_completed : option bool
}.
End UpdateTaskRequest.

Definition _task_to_response (task : Task.t) : TaskResponse.t :=
  TaskResponse.mk (Task.id task) (Task.title task) (Task.is_completed task)
    (Task.created_at task) (Task.updated_at task).

Definition task_not_found : exn :=
  HTTPException 404 (str_of "Task not found.").

Definition title_empty : exn :=
  HTTPException 400 (str_of "Task title cannot be empty.").

(** [select(Task).where(Task.id == task_id, Task.user_id == user_id)] with
    [scalar_one_or_none()]. *)
Definition select_task_of (d : TaskDB) (task_id : UUID) (user_id : str)
  : option Task.t :=
  match d !! task_id with
  | Some r =>
      if decide (Task.row_user_id r = user_id)
      then Some (Task.of_row task_id r) else None
  | None => None
  end.

(** [select(Task).where(Task.user_id == user_id)
    .order_by(Task.created_at.desc())] *)
Definition select_tasks_of (d : TaskDB) (user_id : str) : list Task.t :=
  order_by_desc Task.created_at
    (filter (fun task => Task.user_id task = user_id)
       (uncurry Task.of_row <$> map_to_list d)).

(** [GET /api/tasks] *)
Definition list_tasks (current_user : str) : M TaskDB TasksListResponse.t :=
  fun d =>
    let user_id := current_user in
    let tasks := select_tasks_of d user_id in
    let task_responses := _task_to_response <$> tasks in
    let completed_count :=
      Z.of_nat (length (filter (fun t => Task.is_completed t = true) tasks)) in
    let total_count := Z.of_nat (length tasks) in
    (Return (TasksListResponse.mk task_responses total_count completed_count
               (total_count - completed_count)), d).

Section Tasks.

(** How the id column of [Task] binds a Python [str] when a statement is
    executed: the three routes that take a [task_id] declare it as [str]
    and compare [Task.id] with it as it is. The column type, declared in
    [src.models], turns the text into the identifier it compares with, or
    raises (a [StatementError]). *)
Variable bind_id : str -> outcome UUID.

(** The parts of the [Task] model that [src.models] declares: the row
    [Task(user_id=.., title=..)] with its defaults, given the clock reading
    and the identifier drawn, and the methods [update_title] and
    [mark_complete], each given its clock reading; a method returns the
    changed object or raises. *)
Variable Task_init : datetime -> UUID -> str -> str -> Task.t.
Variable update_title : datetime -> str -> Task.t -> outcome Task.t.
Variable mark_complete : datetime -> Task.t -> outcome Task.t.

(** [session.add(task); commit(); refresh(task)] for a row loaded under
    the primary key [task_id]: the row is written back under that key and
    the object is read back from it. *)
Definition commit_task (task_id : UUID) (task : Task.t)
  : M TaskDB TaskResponse.t :=
  fun d =>
    (Return (_task_to_response (Task.of_row task_id (Task.to_row task))),
     <[task_id := Task.to_row task]> d).

(** [POST /api/tasks]. The commit of the new row raises when its primary
    key is taken. *)
Definition create_task (now : datetime) (uuid4 : UUID) (request_title : str)
    (current_user : str) : M TaskDB TaskResponse.t :=
  fun d =>
    let user_id := current_user in
    let title := strip request_title in
    if bool_decide (title = []) then (Raise title_empty, d)
    else
      let task := Task_init now uuid4 user_id title in
      match d !! Task.id task with
      | Some _ => (Raise IntegrityError, d)
      | None => commit_task (Task.id task) task d
      end.

(** [PUT /api/tasks/{task_id}]. [now_title] and [now_complete] are the
    clock readings of the two methods, [now] the one of
    [datetime.utcnow()]. A statement or a method that raises leaves the
    session without a commit. *)
Definition update_task (now_title now_complete now : datetime)
    (task_id : str) (request : UpdateTaskRequest.t) (current_user : str)
  : M TaskDB TaskResponse.t :=
  fun d =>
    let user_id := current_user in
    match bind_id task_id with
    | Raise e => (Raise e, d)
    | Return tid =>
        match select_task_of d tid user_id with
        | None => (Raise task_not_found, d)
        | Some task =>
            let titled :=
              match UpdateTaskRequest.title request with
              | Some t => update_title now_title (strip t) task
              | None => Return task
              end in
            match titled with
            | Raise e => (Raise e, d)
            | Return task =>
                let completed :=
                  match UpdateTaskRequest.is_completed request with
                  | Some true => mark_complete now_complete task
                  | Some false => Return (Task.set_incomplete now task)
                  | None => Return task
                  end in
                match completed with
                | Raise e => (Raise e, d)
                | Return task => commit_task tid task d
                end
            end
        end
    end.

(** [PUT /api/tasks/{task_id}/toggle] *)
Definition toggle_task (now_complete now : datetime) (task_id : str)
    (current_user : str) : M TaskDB TaskResponse.t :=
  fun d =>
    let user_id := current_user in
    match bind_id task_id with
    | Raise e => (Raise e, d)
    | Return tid =>
        match select_task_of d tid user_id with
        | None => (Raise task_not_found, d)
        | Some task =>
            let toggled :=
              if Task.is_completed task
              then Return (Task.mk (Task.id task) (Task.user_id task)
                             (Task.title task) false (Task.created_at task)
                             (Task.updated_at task))
              else mark_complete now_complete task in
            match toggled with
            | Raise e => (Raise e, d)
            | Return task => commit_task tid (Task.set_updated_at now task) d
            end
        end
    end.

(** [DELETE /api/tasks/{task_id}] *)
Definition delete_task (task_id : str) (current_user : str) : M TaskDB unit :=
  fun d =>
    let user_id := current_user in
    match bind_id task_id with
    | Raise e => (Raise e, d)
    | Return tid =>
        match select_task_of d tid user_id with
        | None => (Raise task_not_found, d)
        | Some task => (Return tt, delete (Task.id task) d)
        end
    end.

End Tasks.

(** ** Vocabulary of the task properties *)

(** [task_id] names a task of the table that [owner] owns. *)
Definition task_owned_by (d : TaskDB) (task_id : UUID) (owner : str) : Prop :=
  ∃ r, d !! task_id = Some r ∧ Task.row_user_id r = owner.

(** Newest first. *)
Definition task_created_ge (r1 r2 : TaskResponse.t) : Prop :=
  TaskResponse.created_at r2 <= TaskResponse.created_at r1.

(** ** Sample tasks *)

(** Alice has a completed and an open task, bob has one open task. *)
Definition sample_tasks : gmap N Task.row :=
  {[ 1%N := Task.mk_row alice (str_of "buy milk") true 1 5;
     2%N := Task.mk_row alice (str_of "call mum") false 2 2;
     3%N := Task.mk_row bob (str_of "pay rent") false 3 3 ]}.

(** ** Sample bindings of a path parameter *)

(** What a statement raises when a parameter cannot be bound. *)
Definition statement_error : exn := Error (str_of "StatementError").

(** The value of a hexadecimal digit. *)
Definition hex_digit (c : N) : option N :=
  if ((48 <=? c) && (c <=? 57))%N then Some (c - 48)%N
  else if ((97 <=? c) && (c <=? 102))%N then Some (c - 87)%N
  else if ((65 <=? c) && (c <=? 70))%N then Some (c - 55)%N
  else None.

Fixpoint parse_hex (acc : N) (s : str) : option N :=
  match s with
  | [] => Some acc
  | c :: s' =>
      match hex_digit c with
      | Some v => parse_hex (16 * acc + v)%N s'
      | None => None
      end
  end.

(** A column type that parses the text it is given: hexadecimal digits
    bind to the identifier they write, any other text raises. *)
Definition bind_parsing (s : str) : outcome UUID :=
  match s with
  | [] => Raise statement_error
  | _ =>
      match parse_hex 0 s with
      | Some i => Return i
      | None => Raise statement_error
      end
  end.

(** A column type that binds [uuid.UUID] objects only: every text raises. *)
Definition bind_objects_only (_ : str) : outcome UUID := Raise statement_error.

(** Alice owns conversations 1 and 2, bob owns conversation 3; each holds
    one user message. *)
Definition sample_db2 : DB :=
  mk_DB {[ 1%N := Conversation.mk_row alice 1 2;
           2%N := Conversation.mk_row alice 3 9;
           3%N := Conversation.mk_row bob 4 30 ]}
        [Message.mk 50%N 1%N USER (str_of "hello there") None 2;
         Message.mk 51%N 2%N USER (str_of "second thread") None 9;
         Message.mk 52%N 3%N USER (str_of "bob here") None 30].

(** A [Task] model whose methods set the field and the timestamp. *)
Definition sample_Task_init (now : datetime) (uuid4 : UUID)
    (user_id title : str) : Task.t :=
  Task.mk uuid4 user_id title false now now.

Definition sample_update_title (now : datetime) (title : str) (task : Task.t)
  : outcome Task.t :=
  Return (Task.mk (Task.id task) (Task.user_id task) title
            (Task.is_completed task) (Task.created_at task) now).

Definition sample_mark_complete (now : datetime) (task : Task.t)
  : outcome Task.t :=
  Return (Task.mk (Task.id task) (Task.user_id task) (Task.title task) true
            (Task.created_at task) now).

(* ===================================================================== *)
(** * Sorting lemmas *)
(* ===================================================================== *)

Section OrderBy.
Context {A : Type} (key : A -> Z).

Local Abbreviation le_key := (key_le key).

Lemma insert_by_perm (x : A) (l : list A) : insert_by key x l ≡ₚ x :: l.
Proof.
  induction l as [|y l IH]; simpl; [done|].
  destruct (key x <=? key y); [done|].
  rewrite IH. apply perm_swap.
Qed.

Lemma order_by_perm (l : list A) : order_by key l ≡ₚ l.
Proof.
  induction l as [|x l IH]; simpl; [done|].
  fold (order_by key l). rewrite insert_by_perm. by f_equiv.
Qed.

Lemma elem_of_order_by (x : A) (l : list A) : x ∈ order_by key l ↔ x ∈ l.
Proof. by rewrite order_by_perm. Qed.

Lemma order_by_nil_inv (l : list A) : order_by key l = [] → l = [].
Proof.
  intros H. apply Permutation_nil_r. rewrite <- H.
  symmetry. apply order_by_perm.
Qed.

Lemma insert_by_sorted (x : A) (l : list A) :
  StronglySorted le_key l → StronglySorted le_key (insert_by key x l).
Proof.
  induction 1 as [|y l Hs IH Hy]; simpl.
  - repeat constructor.
  - destruct (Z.leb_spec (key x) (key y)) as [Hxy|Hxy].
    + constructor; [by constructor|].
      constructor; [done|].
      eapply Forall_impl; [exact Hy|].
      intros z Hz. unfold key_le in *. lia.
    + constructor; [done|].
      rewrite insert_by_perm. constructor; [|done].
      unfold key_le. lia.
Qed.

Lemma order_by_sorted (l : list A) : StronglySorted le_key (order_by key l).
Proof.
  induction l as [|x l IH]; simpl; [constructor|].
  by apply insert_by_sorted.
Qed.

(** The first row of an ordered selection is a least one. *)
Lemma head_order_by_least (l : list A) (x : A) :
  head (order_by key l) = Some x →
  x ∈ l ∧ ∀ y, y ∈ l → key x <= key y.
Proof.
  intros [l' Hl]%head_Some.
  pose proof (order_by_sorted l) as Hs. rewrite Hl in Hs.
  apply StronglySorted_inv in Hs as [_ Hall].
  split.
  - apply elem_of_order_by. rewrite Hl. by left.
  - intros y Hy. apply elem_of_order_by in Hy. rewrite Hl in Hy.
    apply elem_of_cons in Hy as [->|Hy]; [lia|].
    rewrite Forall_forall in Hall. by apply Hall.
Qed.

(** Rows with equal keys keep their insertion order. *)
Lemma insert_by_stable (k : Z) (x : A) (l : list A) :
  filter (fun y => key y = k) (insert_by key x l)
  = filter (fun y => key y = k) (x :: l).
Proof.
  induction l as [|y l IH]; simpl; [done|].
  destruct (Z.leb_spec (key x) (key y)) as [Hxy|Hxy]; [done|].
  rewrite (filter_cons _ y), IH, !(filter_cons _ x), (filter_cons _ y).
  repeat case_decide; try done; lia.
Qed.

Lemma order_by_stable (k : Z) (l : list A) :
  filter (fun y => key y = k) (order_by key l)
  = filter (fun y => key y = k) l.
Proof.
  induction l as [|x l IH]; simpl; [done|].
  fold (order_by key l).
  by rewrite insert_by_stable, !filter_cons, IH.
Qed.

End OrderBy.

(* ===================================================================== *)
(** * Lookups *)
(* ===================================================================== *)

Lemma select_conversation_of_Some (d : DB) (cid : UUID) (uid : str)
    (c : Conversation.t) :
  select_conversation_of d cid uid = Some c ↔
  ∃ row, conversations d !! cid = Some row
         ∧ Conversation.row_user_id row = uid
         ∧ c = Conversation.of_row cid row.
Proof.
  unfold select_conversation_of, select_conversation.
  destruct (conversations d !! cid) as [row|] eqn:Hrow; simpl.
  - case_decide as Hu; simpl in Hu.
    + split.
      * intros [= <-]. by exists row.
      * intros (row' & [= <-] & _ & ->). done.
    + split; [done|].
      intros (row' & [= <-] & Hu' & _). done.
  - split; [done|]. intros (row' & [=] & _).
Qed.

Lemma select_conversation_of_None (d : DB) (cid : UUID) (uid : str) :
  select_conversation_of d cid uid = None ↔ ¬ owned_by d cid uid.
Proof.
  unfold select_conversation_of, select_conversation, owned_by.
  destruct (conversations d !! cid) as [row|] eqn:Hrow; simpl.
  - case_decide as Hu; simpl in Hu.
    + split; [done|]. intros H. destruct H. by exists row.
    + split; [|done]. intros _ (row' & [= <-] & Hu'). done.
  - split; [|done]. intros _ (row' & [=] & _).
Qed.

Lemma elem_of_select_messages (d : DB) (cid : UUID) (m : Message.t) :
  m ∈ select_messages d cid ↔ m ∈ messages d ∧ Message.conversation_id m = cid.
Proof. unfold select_messages. rewrite list_elem_of_filter. tauto. Qed.

Lemma message_id_used_false (d : DB) (i : UUID) :
  message_id_used d i = false ↔ ∀ m, m ∈ messages d → Message.id m ≠ i.
Proof.
  unfold message_id_used. rewrite bool_decide_eq_false, list_elem_of_fmap.
  split.
  - intros H m Hm Hi. apply H. by exists m.
  - intros H (m & -> & Hm). by apply (H m).
Qed.

(* ===================================================================== *)
(** * Conversation registry *)
(* ===================================================================== *)

(** Creation with a free identifier: what is returned and what is stored. *)
Lemma get_or_create_conversation_creates (now : datetime) (uuid4 : UUID)
    (user_id : str) (conversation_id : option UUID) (d : DB) :
  conversations d !! uuid4 = None →
  (∀ cid, conversation_id = Some cid → ¬ owned_by d cid user_id) →
  get_or_create_conversation now uuid4 user_id conversation_id d
  = (Return (Conversation.mk uuid4 user_id now now),
     mk_DB (<[uuid4 := Conversation.mk_row user_id now now]> (conversations d))
           (messages d)).
Proof.
  intros Hfresh Hnot. unfold get_or_create_conversation.
  destruct conversation_id as [cid|].
  - specialize (Hnot cid eq_refl).
    apply select_conversation_of_None in Hnot. by rewrite Hnot, Hfresh.
  - by rewrite Hfresh.
Qed.

(** C1: for every owner B and every conversation id that names no
    conversation owned by B (an unknown id, or the id of a conversation of
    another owner A), resolve-or-create does not raise and does not return
    A's conversation: it creates and returns a brand-new conversation owned
    by B, under an identifier that named nothing before, and leaves every
    existing conversation and every message as they were. When the id names
    a conversation owned by B, that conversation is returned and the store
    is unchanged. [uuid4] is the identifier drawn for the new row, free in
    the store. *)
Theorem get_or_create_conversation_isolation (now : datetime) (uuid4 : UUID)
    (B : str) (cid : UUID) (d : DB) :
  conversations d !! uuid4 = None →
  (¬ owned_by d cid B →
   ∃ conv d',
     get_or_create_conversation now uuid4 B (Some cid) d = (Return conv, d')
     ∧ Conversation.user_id conv = B
     ∧ select_conversation d (Conversation.id conv) = None
     ∧ select_conversation d' (Conversation.id conv) = Some conv
     ∧ (∀ A a, select_conversation_of d cid A = Some a →
               Conversation.id conv ≠ Conversation.id a)
     ∧ (∀ i, i ≠ Conversation.id conv →
             conversations d' !! i = conversations d !! i)
     ∧ messages d' = messages d)
  ∧ (∀ row, conversations d !! cid = Some row →
            Conversation.row_user_id row = B →
            get_or_create_conversation now uuid4 B (Some cid) d
            = (Return (Conversation.of_row cid row), d)).
Proof.
  intros Hfresh. split.
  - intros Hnot.
    eexists _, _. split.
    { apply get_or_create_conversation_creates; [done|].
      by intros ? [= <-]. }
    simpl. unfold select_conversation; simpl.
    rewrite Hfresh, lookup_insert_eq. simpl.
    repeat split; try done.
    + intros A a Ha.
      apply select_conversation_of_Some in Ha as (row & Hrow & _ & ->).
      simpl. intros ->. by rewrite Hfresh in Hrow.
    + intros i Hi. by rewrite lookup_insert_ne.
  - intros row Hrow Hu. unfold get_or_create_conversation.
    assert (select_conversation_of d cid B = Some (Conversation.of_row cid row))
      as ->; [|done].
    apply select_conversation_of_Some. by exists row.
Qed.

(** An instance of C1: bob passes the id of alice's conversation. *)
Lemma get_or_create_conversation_isolation_witness :
  conversations sample_db !! 7%N = None
  ∧ ¬ owned_by sample_db 1%N bob
  ∧ ∃ conv d',
      get_or_create_conversation 10 7%N bob (Some 1%N) sample_db
      = (Return conv, d')
      ∧ Conversation.user_id conv = bob
      ∧ select_conversation sample_db (Conversation.id conv) = None.
Proof.
  assert (conversations sample_db !! 7%N = None) as Hfresh by reflexivity.
  assert (¬ owned_by sample_db 1%N bob) as Hnot.
  { intros (row & Hrow & Hu).
    assert (row = Conversation.mk_row alice 1 2) as ->.
    { vm_compute in Hrow. by injection Hrow. }
    vm_compute in Hu. discriminate Hu. }
  split; [exact Hfresh|]. split; [exact Hnot|].
  destruct (get_or_create_conversation_isolation 10 7%N bob 1%N sample_db Hfresh)
    as [Hnew _].
  destruct (Hnew Hnot) as (conv & d' & Hrun & Hu & Hid & _).
  by exists conv, d'.
Defined.

(* ===================================================================== *)
(** * Turn orchestrator *)
(* ===================================================================== *)

Lemma chat_except_surfaced {A} (e : exn) (w : World) :
  chat_except (A := A) e w = (Raise (surfaced e), w).
Proof. by destruct e. Qed.

(** The paths of a turn, in program order. *)
Lemma chat_unfold (run_agent : str -> str -> list history_entry ->
                               outcome AgentResponse.t)
    (env : turn_env) (request : ChatRequest.t) (user : str) (w : World) :
  chat run_agent env request user w =
  let message := strip (ChatRequest.message request) in
  if bool_decide (message = []) then
    (Raise (HTTPException 400 detail_400), w)
  else
    match get_or_create_conversation (conv_now env) (conv_uuid env) user
            (ChatRequest.conversation_id request) (db w) with
    | (Raise e, d1) => (Raise (surfaced e), mk_World d1 (agent_calls w))
    | (Return conv, d1) =>
        let cid := Conversation.id conv in
        let history :=
          history_entry_of
            <$> order_by Message.created_at (select_messages d1 cid) in
        match save_message (user_msg_now env) (user_touch_now env)
                (user_msg_uuid env) cid USER message None d1 with
        | (Raise e, d2) => (Raise (surfaced e), mk_World d2 (agent_calls w))
        | (Return _, d2) =>
            let calls :=
              agent_calls w ++ [mk_agent_call user message history] in
            match run_agent user message history with
            | Raise e => (Raise (surfaced e), mk_World d2 calls)
            | Return resp =>
                match save_message (asst_msg_now env) (asst_touch_now env)
                        (asst_msg_uuid env) cid ASSISTANT
                        (AgentResponse.content resp)
                        match AgentResponse.tool_calls resp with
                        | [] => None
                        | tcs => Some (tool_call_dict_of <$> tcs)
                        end d2 with
                | (Raise e, d3) => (Raise (surfaced e), mk_World d3 calls)
                | (Return _, d3) =>
                    (Return (ChatResponse.mk cid (AgentResponse.content resp)
                               (tool_call_response_of
                                  <$> AgentResponse.tool_calls resp)),
                     mk_World d3 calls)
                end
            end
        end
    end.
Proof.
  unfold chat. cbv zeta.
  case_bool_decide; [done|].
  unfold try_except, bind, with_db, await_run_agent, ret,
    load_conversation_history.
  destruct (get_or_create_conversation _ _ _ _ _) as [[conv|e] d1]; simpl;
    [|by rewrite chat_except_surfaced].
  destruct (save_message _ _ _ _ USER _ _ _) as [[umsg|e] d2]; simpl;
    [|by rewrite chat_except_surfaced].
  destruct (run_agent _ _ _) as [resp|e]; simpl;
    [|by rewrite chat_except_surfaced].
  destruct (save_message _ _ _ _ ASSISTANT _ _ _) as [[amsg|e] d3]; simpl;
    [done|by rewrite chat_except_surfaced].
Qed.

(** C2: a message that is empty after trimming surrounding whitespace is
    rejected with the 400 validation error before anything is persisted:
    the store (conversations and messages) is exactly what it was, and the
    agent is not called. *)
Theorem chat_rejects_blank_message
    (run_agent : str -> str -> list history_entry -> outcome AgentResponse.t)
    (env : turn_env) (request : ChatRequest.t) (user : str) (w : World) :
  strip (ChatRequest.message request) = [] →
  chat run_agent env request user w
  = (Raise (HTTPException 400 detail_400), w).
Proof.
  intros Hblank. rewrite chat_unfold. cbv zeta.
  by rewrite bool_decide_eq_true_2.
Qed.

(** An instance of C2: a message of blanks, a tab and a line feed. *)
Lemma chat_rejects_blank_message_witness :
  strip [32; 9; 10; 32]%N = []
  ∧ chat agent_tool sample_env (ChatRequest.mk [32; 9; 10; 32]%N (Some 1%N))
      alice sample_world
    = (Raise (HTTPException 400 detail_400), sample_world).
Proof.
  split; [reflexivity|].
  apply (chat_rejects_blank_message agent_tool sample_env
           (ChatRequest.mk [32; 9; 10; 32]%N (Some 1%N)) alice sample_world).
  reflexivity.
Defined.

(* ===================================================================== *)
(** * Message store *)
(* ===================================================================== *)

(** The two outcomes of [save_message]: the commit raises on a taken
    primary key and nothing is written, or the row is appended and the
    conversation, when there is one, is touched. *)
Lemma save_message_cases (now touch_now : datetime) (uuid4 cid : UUID)
    (role : MessageRole) (content : str)
    (tool_calls : option (list tool_call_dict)) (d : DB) :
  (message_id_used d uuid4 = true
   ∧ save_message now touch_now uuid4 cid role content tool_calls d
     = (Raise IntegrityError, d))
  ∨ (message_id_used d uuid4 = false
     ∧ save_message now touch_now uuid4 cid role content tool_calls d
       = (Return (Message.mk uuid4 cid role content tool_calls now),
          mk_DB
            match conversations d !! cid with
            | Some row =>
                <[cid := Conversation.mk_row (Conversation.row_user_id row)
                           (Conversation.row_created_at row) touch_now]>
                  (conversations d)
            | None => conversations d
            end
            (messages d ++ [Message.mk uuid4 cid role content tool_calls now]))).
Proof.
  unfold save_message, select_conversation.
  destruct (message_id_used d uuid4); [by left|right].
  split; [done|]. by destruct (conversations d !! cid).
Qed.

(** Resolve-or-create never writes a message. *)
Lemma get_or_create_conversation_messages (now : datetime) (uuid4 : UUID)
    (user_id : str) (conversation_id : option UUID) (d : DB) :
  messages (snd (get_or_create_conversation now uuid4 user_id
                   conversation_id d)) = messages d.
Proof.
  unfold get_or_create_conversation.
  destruct conversation_id as [cid|];
    [destruct (select_conversation_of d cid user_id); [done|]|];
    by destruct (conversations d !! uuid4).
Qed.

(** C10: when [save_message] is given a conversation id that names no
    conversation, it does not fail: the message row is inserted as it is,
    with the dangling conversation id, the conversation table is left
    alone (the touch is skipped), and the message is returned. [uuid4] is
    the identifier drawn for the row, not yet used by a message. *)
Theorem save_message_without_conversation (now touch_now : datetime)
    (uuid4 cid : UUID) (role : MessageRole) (content : str)
    (tool_calls : option (list tool_call_dict)) (d : DB) :
  conversations d !! cid = None →
  message_id_used d uuid4 = false →
  let message := Message.mk uuid4 cid role content tool_calls now in
  save_message now touch_now uuid4 cid role content tool_calls d
  = (Return message, mk_DB (conversations d) (messages d ++ [message]))
  ∧ Message.conversation_id message = cid
  ∧ select_conversation (snd (save_message now touch_now uuid4 cid role
                                content tool_calls d)) cid = None.
Proof.
  intros Hnone Hfresh message.
  destruct (save_message_cases now touch_now uuid4 cid role content
              tool_calls d) as [[Hu _]|[_ ->]]; [congruence|].
  rewrite Hnone. simpl. repeat split.
  unfold select_conversation; simpl. by rewrite Hnone.
Qed.

(** An instance of C10: a message for conversation 9, which does not exist. *)
Lemma save_message_without_conversation_witness :
  conversations sample_db !! 9%N = None
  ∧ message_id_used sample_db 60%N = false
  ∧ save_message 20 21 60%N 9%N USER (str_of "hi") None sample_db
    = (Return (Message.mk 60%N 9%N USER (str_of "hi") None 20),
       mk_DB (conversations sample_db)
         (messages sample_db
            ++ [Message.mk 60%N 9%N USER (str_of "hi") None 20])).
Proof.
  assert (conversations sample_db !! 9%N = None) as H1 by reflexivity.
  assert (message_id_used sample_db 60%N = false) as H2 by reflexivity.
  split; [exact H1|]. split; [exact H2|].
  exact (proj1 (save_message_without_conversation 20 21 60%N 9%N USER
                  (str_of "hi") None sample_db H1 H2)).
Defined.






(* ===================================================================== *)
(** * Turns that reach the agent *)
(* ===================================================================== *)

Section Turn.
Variable run_agent :
  str -> str -> list history_entry -> outcome AgentResponse.t.
Variables (env : turn_env) (request : ChatRequest.t) (user : str).
Variable w : World.

Local Abbreviation message := (strip (ChatRequest.message request)).
Local Abbreviation resolve :=
  (get_or_create_conversation (conv_now env) (conv_uuid env) user
     (ChatRequest.conversation_id request) (db w)).

(** A turn whose agent call raises: the user message is the only row
    written and the exception is surfaced through the handlers. *)
Lemma chat_agent_raises (conv : Conversation.t) (d1 : DB) (e : exn) :
  message ≠ [] →
  resolve = (Return conv, d1) →
  message_id_used d1 (user_msg_uuid env) = false →
  run_agent user message
    (history_entry_of
       <$> order_by Message.created_at
             (select_messages d1 (Conversation.id conv))) = Raise e →
  ∃ w',
    chat run_agent env request user w = (Raise (surfaced e), w')
    ∧ messages (db w')
      = messages (db w)
          ++ [turn_user_message env (Conversation.id conv) message].
Proof.
  intros Hmsg Hres Hfresh Hagent.
  rewrite chat_unfold. cbv zeta.
  rewrite bool_decide_eq_false_2 by done.
  rewrite Hres.
  destruct (save_message_cases (user_msg_now env) (user_touch_now env)
              (user_msg_uuid env) (Conversation.id conv) USER message None d1)
    as [[Hu _]|[_ ->]]; [congruence|].
  rewrite Hagent. eexists. split; [done|]. simpl.
  pose proof (get_or_create_conversation_messages (conv_now env)
                (conv_uuid env) user (ChatRequest.conversation_id request)
                (db w)) as Hm.
  rewrite Hres in Hm. simpl in Hm. by rewrite Hm.
Qed.

(** A turn whose agent call returns: both rows are written, in order. *)
Lemma chat_agent_returns (conv : Conversation.t) (d1 : DB)
    (resp : AgentResponse.t) :
  message ≠ [] →
  resolve = (Return conv, d1) →
  message_id_used d1 (user_msg_uuid env) = false →
  message_id_used d1 (asst_msg_uuid env) = false →
  asst_msg_uuid env ≠ user_msg_uuid env →
  run_agent user message
    (history_entry_of
       <$> order_by Message.created_at
             (select_messages d1 (Conversation.id conv))) = Return resp →
  ∃ w',
    chat run_agent env request user w
    = (Return (ChatResponse.mk (Conversation.id conv)
                 (AgentResponse.content resp)
                 (tool_call_response_of <$> AgentResponse.tool_calls resp)),
       w')
    ∧ messages (db w')
      = messages (db w)
          ++ [turn_user_message env (Conversation.id conv) message;
              Message.mk (asst_msg_uuid env) (Conversation.id conv) ASSISTANT
                (AgentResponse.content resp)
                match AgentResponse.tool_calls resp with
                | [] => None
                | tcs => Some (tool_call_dict_of <$> tcs)
                end
                (asst_msg_now env)].
Proof.
  intros Hmsg Hres Hfresh1 Hfresh2 Hne Hagent.
  rewrite chat_unfold. cbv zeta.
  rewrite bool_decide_eq_false_2 by done.
  rewrite Hres.
  destruct (save_message_cases (user_msg_now env) (user_touch_now env)
              (user_msg_uuid env) (Conversation.id conv) USER message None d1)
    as [[Hu _]|[_ ->]]; [congruence|].
  rewrite Hagent.
  match goal with
  | |- context [save_message ?a ?b ?c ?i ASSISTANT ?x ?y ?d2] =>
      destruct (save_message_cases a b c i ASSISTANT x y d2)
        as [[Hu _]|[_ ->]]
  end.
  - exfalso. revert Hu. unfold message_id_used.
    rewrite bool_decide_eq_true. simpl. rewrite fmap_app. simpl.
    rewrite elem_of_app, list_elem_of_singleton.
    intros [Hin|Heq]; [|done].
    apply bool_decide_eq_false in Hfresh2. done.
  - eexists. split; [done|]. simpl.
    pose proof (get_or_create_conversation_messages (conv_now env)
                  (conv_uuid env) user (ChatRequest.conversation_id request)
                  (db w)) as Hm.
    rewrite Hres in Hm. simpl in Hm. by rewrite Hm, <- app_assoc.
Qed.

End Turn.

(** C3, as amended: in every turn whose agent call raises, the user
    message persisted before the call stays stored and is the only row the
    turn writes, so no assistant message is written. The caller receives
    the generic 500 failure when the agent raised anything but an
    [HTTPException]; an [HTTPException] raised by the agent is re-raised as
    it is, by the first handler of the endpoint. *)
Theorem chat_agent_failure
    (run_agent : str -> str -> list history_entry -> outcome AgentResponse.t)
    (env : turn_env) (request : ChatRequest.t) (user : str) (w : World)
    (conv : Conversation.t) (d1 : DB) (e : exn) :
  let message := strip (ChatRequest.message request) in
  let cid := Conversation.id conv in
  message ≠ [] →
  get_or_create_conversation (conv_now env) (conv_uuid env) user
    (ChatRequest.conversation_id request) (db w) = (Return conv, d1) →
  message_id_used d1 (user_msg_uuid env) = false →
  run_agent user message
    (history_entry_of
       <$> order_by Message.created_at (select_messages d1 cid)) = Raise e →
  ∃ w',
    chat run_agent env request user w = (Raise (surfaced e), w')
    ∧ messages (db w') = messages (db w) ++ [turn_user_message env cid message]
    ∧ turn_user_message env cid message ∈ messages (db w')
    ∧ (∀ m, m ∈ messages (db w') → Message.role m = ASSISTANT →
            m ∈ messages (db w))
    ∧ ((∀ status detail, e ≠ HTTPException status detail) →
       surfaced e = generic_failure)
    ∧ (∀ status detail, e = HTTPException status detail → surfaced e = e).
Proof.
  intros message cid Hmsg Hres Hfresh Hagent.
  destruct (chat_agent_raises run_agent env request user w conv d1 e
              Hmsg Hres Hfresh Hagent) as (w' & Hrun & Hms).
  exists w'. split; [done|]. split; [done|]. rewrite Hms.
  split; [|split; [|split]].
  - apply elem_of_app. right. by apply list_elem_of_singleton.
  - intros m Hm Hrole.
    apply elem_of_app in Hm as [Hm|Hm]; [done|].
    apply list_elem_of_singleton in Hm. subst m. discriminate Hrole.
  - intros Hnot. destruct e as [status detail| |info]; try done.
    by destruct (Hnot status detail).
  - by intros status detail ->.
Qed.

(** An instance of C3 as amended: the agent times out during alice's turn. *)
Lemma chat_agent_failure_witness :
  strip (ChatRequest.message sample_request) ≠ []
  ∧ ∃ w',
      chat agent_error sample_env sample_request alice sample_world
      = (Raise generic_failure, w')
      ∧ messages (db w')
        = messages sample_db
            ++ [turn_user_message sample_env 1%N (str_of "buy milk")].
Proof.
  assert (strip (ChatRequest.message sample_request) ≠ []) as H1.
  { vm_compute. discriminate. }
  split; [exact H1|].
  destruct (chat_agent_failure agent_error sample_env sample_request alice
              sample_world (Conversation.mk 1%N alice 1 2) sample_db
              (Error (str_of "upstream timeout")) H1 eq_refl eq_refl eq_refl)
    as (w' & Hrun & Hms & _).
  exists w'. split; [exact Hrun|exact Hms].
Defined.

(** C3 as stated fails: when the agent raises an [HTTPException] of its
    own, the caller receives that exception, detail included, and not the
    generic failure. *)
Lemma chat_agent_failure_not_generic :
  agent_http alice (str_of "buy milk")
    (history_entry_of
       <$> order_by Message.created_at (select_messages sample_db 1%N))
  = Raise (HTTPException 418 (str_of "internal detail"))
  ∧ fst (chat agent_http sample_env sample_request alice sample_world)
    = Raise (HTTPException 418 (str_of "internal detail"))
  ∧ fst (chat agent_http sample_env sample_request alice sample_world)
    ≠ Raise generic_failure.
Proof.
  split; [reflexivity|].
  assert (fst (chat agent_http sample_env sample_request alice sample_world)
          = Raise (HTTPException 418 (str_of "internal detail"))) as H
    by (vm_compute; reflexivity).
  split; [exact H|]. rewrite H. unfold generic_failure. discriminate.
Qed.

(** Whatever the outcome of a turn, the rows it writes are appended to the
    message table, none of them stores an empty tool-call list, and the
    user-role rows store no tool-call record. *)
Lemma chat_written_messages
    (run_agent : str -> str -> list history_entry -> outcome AgentResponse.t)
    (env : turn_env) (request : ChatRequest.t) (user : str) (w : World) :
  ∃ new,
    messages (db (snd (chat run_agent env request user w)))
    = messages (db w) ++ new
    ∧ Forall (fun m => Message.tool_calls m ≠ Some []
                       ∧ (Message.role m = USER → Message.tool_calls m = None))
        new.
Proof.
  rewrite chat_unfold. cbv zeta.
  case_bool_decide; [exists []; by rewrite app_nil_r|].
  pose proof (get_or_create_conversation_messages (conv_now env)
                (conv_uuid env) user (ChatRequest.conversation_id request)
                (db w)) as Hm.
  destruct (get_or_create_conversation _ _ _ _ _) as [[conv|e] d1];
    simpl in Hm; [|exists []; by rewrite app_nil_r].
  destruct (save_message_cases (user_msg_now env) (user_touch_now env)
              (user_msg_uuid env) (Conversation.id conv) USER
              (strip (ChatRequest.message request)) None d1)
    as [[_ ->]|[_ ->]]; [exists []; by rewrite app_nil_r|].
  assert (∀ m : Message.t,
            Message.tool_calls m = None →
            Message.tool_calls m ≠ Some []
            ∧ (Message.role m = USER → Message.tool_calls m = None)) as Hnone.
  { intros m ->. done. }
  destruct (run_agent _ _ _) as [resp|e].
  - match goal with
    | |- context [save_message ?a ?b ?c ?i ASSISTANT ?x ?y ?d2] =>
        destruct (save_message_cases a b c i ASSISTANT x y d2)
          as [[_ ->]|[_ ->]]
    end; simpl; rewrite Hm.
    + eexists [_]. split; [done|]. repeat constructor; by apply Hnone.
    + eexists [_; _]. split; [by rewrite <- app_assoc|].
      constructor; [by apply Hnone|]. constructor; [|constructor]. simpl.
      split; [|done]. by destruct (AgentResponse.tool_calls resp).
  - simpl. rewrite Hm.
    eexists [_]. split; [done|]. repeat constructor; by apply Hnone.
Qed.

(** C9: no message written by a turn stores an empty tool-call list, and
    user messages store no tool-call record, whatever the outcome. In a
    turn that succeeds, the assistant message stores the agent's tool calls
    as the ordered list of (tool_name, arguments, result) triples when that
    list is not empty, and no record at all when it is empty. *)
Theorem chat_tool_calls_encoding
    (run_agent : str -> str -> list history_entry -> outcome AgentResponse.t)
    (env : turn_env) (request : ChatRequest.t) (user : str) (w : World) :
  let message := strip (ChatRequest.message request) in
  (∃ new,
     messages (db (snd (chat run_agent env request user w)))
     = messages (db w) ++ new
     ∧ Forall (fun m => Message.tool_calls m ≠ Some []
                        ∧ (Message.role m = USER →
                           Message.tool_calls m = None))
         new)
  ∧ ∀ (conv : Conversation.t) (d1 : DB) (resp : AgentResponse.t),
      let cid := Conversation.id conv in
      message ≠ [] →
      get_or_create_conversation (conv_now env) (conv_uuid env) user
        (ChatRequest.conversation_id request) (db w) = (Return conv, d1) →
      message_id_used d1 (user_msg_uuid env) = false →
      message_id_used d1 (asst_msg_uuid env) = false →
      asst_msg_uuid env ≠ user_msg_uuid env →
      run_agent user message
        (history_entry_of
           <$> order_by Message.created_at (select_messages d1 cid))
      = Return resp →
      ∃ w' umsg amsg,
        fst (chat run_agent env request user w)
        = Return (ChatResponse.mk cid (AgentResponse.content resp)
                    (tool_call_response_of <$> AgentResponse.tool_calls resp))
        ∧ snd (chat run_agent env request user w) = w'
        ∧ messages (db w') = messages (db w) ++ [umsg; amsg]
        ∧ Message.role umsg = USER
        ∧ Message.content umsg = message
        ∧ Message.tool_calls umsg = None
        ∧ Message.role amsg = ASSISTANT
        ∧ Message.content amsg = AgentResponse.content resp
        ∧ (AgentResponse.tool_calls resp = [] →
           Message.tool_calls amsg = None)
        ∧ (AgentResponse.tool_calls resp ≠ [] →
           ∃ ds, Message.tool_calls amsg = Some ds
                 ∧ Forall2 (fun tc dd =>
                              d_tool_name dd = ToolCall.tool_name tc
                              ∧ d_arguments dd = ToolCall.arguments tc
                              ∧ d_result dd = ToolCall.result tc)
                     (AgentResponse.tool_calls resp) ds)
        ∧ Message.tool_calls amsg ≠ Some [].
Proof.
  intros message. split; [apply chat_written_messages|].
  intros conv d1 resp cid Hmsg Hres Hf1 Hf2 Hne Hagent.
  destruct (chat_agent_returns run_agent env request user w conv d1 resp
              Hmsg Hres Hf1 Hf2 Hne Hagent) as (w' & Hrun & Hms).
  eexists w', _, _. rewrite Hrun. simpl.
  split; [done|]. split; [done|]. split; [exact Hms|]. simpl.
  repeat split.
  - by intros ->.
  - intros Hnil.
    exists (tool_call_dict_of <$> AgentResponse.tool_calls resp). split.
    + by destruct (AgentResponse.tool_calls resp).
    + apply Forall2_fmap_r, Forall_Forall2_diag, Forall_forall. done.
  - by destruct (AgentResponse.tool_calls resp).
Qed.

(** An instance of C9: the agent adds a task through one tool call. *)
Lemma chat_tool_calls_encoding_witness :
  strip (ChatRequest.message sample_request) ≠ []
  ∧ message_id_used sample_db 100%N = false
  ∧ message_id_used sample_db 101%N = false
  ∧ ∃ w' umsg amsg,
      snd (chat agent_tool sample_env sample_request alice sample_world) = w'
      ∧ messages (db w') = messages sample_db ++ [umsg; amsg]
      ∧ Message.tool_calls umsg = None
      ∧ Message.tool_calls amsg ≠ Some [].
Proof.
  assert (strip (ChatRequest.message sample_request) ≠ []) as H1.
  { vm_compute. discriminate. }
  assert (asst_msg_uuid sample_env ≠ user_msg_uuid sample_env) as H2.
  { vm_compute. discriminate. }
  split; [exact H1|]. split; [reflexivity|]. split; [reflexivity|].
  destruct (proj2 (chat_tool_calls_encoding agent_tool sample_env
                     sample_request alice sample_world)
              (Conversation.mk 1%N alice 1 2) sample_db
              (AgentResponse.mk (str_of "Added.") [sample_tool_call])
              H1 eq_refl eq_refl eq_refl H2 eq_refl)
    as (w' & umsg & amsg & _ & Hw & Hms & _ & _ & Hu & _ & _ & _ & _ & Ha).
  exists w', umsg, amsg. repeat split; assumption.
Defined.

(** C4: a turn calls the agent at most once, and the history it passes is
    the projection of the conversation in the store as it is after
    resolve-or-create and before the user message of the turn is persisted.
    Every projected row was stored before the turn and differs from the
    user message of the turn, which is not among the projected rows and is
    stored once the agent has been called. *)
Theorem chat_history_precedes_user_message
    (run_agent : str -> str -> list history_entry -> outcome AgentResponse.t)
    (env : turn_env) (request : ChatRequest.t) (user : str) (w : World) :
  let message := strip (ChatRequest.message request) in
  let w' := snd (chat run_agent env request user w) in
  agent_calls w' = agent_calls w
  ∨ ∃ conv d1 ms,
      get_or_create_conversation (conv_now env) (conv_uuid env) user
        (ChatRequest.conversation_id request) (db w) = (Return conv, d1)
      ∧ ms = order_by Message.created_at
               (select_messages d1 (Conversation.id conv))
      ∧ load_conversation_history (Conversation.id conv) d1
        = (Return (history_entry_of <$> ms), d1)
      ∧ agent_calls w'
        = agent_calls w
            ++ [mk_agent_call user message (history_entry_of <$> ms)]
      ∧ (∀ m, m ∈ ms →
              m ∈ messages (db w)
              ∧ Message.conversation_id m = Conversation.id conv
              ∧ Message.id m ≠ user_msg_uuid env)
      ∧ (turn_user_message env (Conversation.id conv) message ∉ ms)
      ∧ turn_user_message env (Conversation.id conv) message
        ∈ messages (db w').
Proof.
  intros message w'. subst w'. rewrite chat_unfold. cbv zeta. fold message.
  case_bool_decide; [by left|].
  pose proof (get_or_create_conversation_messages (conv_now env)
                (conv_uuid env) user (ChatRequest.conversation_id request)
                (db w)) as Hm.
  destruct (get_or_create_conversation _ _ _ _ _) as [[conv|e] d1] eqn:Hres;
    [|by left].
  simpl in Hm.
  destruct (save_message_cases (user_msg_now env) (user_touch_now env)
              (user_msg_uuid env) (Conversation.id conv) USER message None d1)
    as [[_ ->]|[Hfresh ->]]; [by left|].
  right. eexists conv, d1, _.
  split; [done|]. split; [reflexivity|]. split; [reflexivity|].
  assert (∀ m, m ∈ order_by Message.created_at
                     (select_messages d1 (Conversation.id conv)) →
               m ∈ messages (db w)
               ∧ Message.conversation_id m = Conversation.id conv
               ∧ Message.id m ≠ user_msg_uuid env) as Hrows.
  { intros m Hin. apply elem_of_order_by in Hin.
    apply elem_of_select_messages in Hin as [Hin Hc].
    rewrite <- Hm. repeat split; [done..|].
    rewrite message_id_used_false in Hfresh. by apply Hfresh. }
  assert (turn_user_message env (Conversation.id conv) message
          ∈ messages d1
              ++ [Message.mk (user_msg_uuid env) (Conversation.id conv) USER
                    message None (user_msg_now env)]) as Hstored.
  { apply elem_of_app. right. by apply list_elem_of_singleton. }
  assert (turn_user_message env (Conversation.id conv) message
          ∉ order_by Message.created_at
              (select_messages d1 (Conversation.id conv))) as Hnotin.
  { intros Hin. by destruct (Hrows _ Hin) as (_ & _ & Hid). }
  destruct (run_agent _ _ _) as [resp|e];
    [|simpl; split_and!; try done; exact Hstored].
  match goal with
  | |- context [save_message ?a ?b ?c ?i ASSISTANT ?x ?y ?d2] =>
      destruct (save_message_cases a b c i ASSISTANT x y d2)
        as [[_ ->]|[_ ->]]
  end; simpl; split_and!; try done; try exact Hstored.
  apply elem_of_app. left. exact Hstored.
Qed.

(* ===================================================================== *)
(** * History projector *)
(* ===================================================================== *)

(** C6: the projection of a conversation is made of exactly the messages
    of that conversation (each once), in ascending [created_at] order, each
    mapped to the pair of its role and content; ids and tool-call payloads
    are not part of an entry. The call never raises and leaves the store
    alone, and a conversation without messages projects to the empty
    sequence. *)
Theorem load_conversation_history_spec (cid : UUID) (d : DB) :
  ∃ ms,
    load_conversation_history cid d = (Return (history_entry_of <$> ms), d)
    ∧ ms ≡ₚ filter (fun m => Message.conversation_id m = cid) (messages d)
    ∧ StronglySorted created_le ms
    ∧ Forall2 (fun m h => h_role h = value (Message.role m)
                          ∧ h_content h = Message.content m)
        ms (history_entry_of <$> ms)
    ∧ ((∀ m, m ∈ messages d → Message.conversation_id m ≠ cid) →
       history_entry_of <$> ms = []).
Proof.
  exists (order_by Message.created_at (select_messages d cid)).
  split; [reflexivity|]. split; [apply order_by_perm|].
  split; [apply order_by_sorted|]. split.
  - apply Forall2_fmap_r, Forall_Forall2_diag, Forall_forall. done.
  - intros Hnone.
    assert (select_messages d cid = []) as ->; [|done].
    apply elem_of_nil_inv. intros m Hm.
    apply elem_of_select_messages in Hm as [Hm Hc]. by apply (Hnone m).
Qed.

(* ===================================================================== *)
(** * Conversation directory *)
(* ===================================================================== *)

(** C5, on the route as it is declared: [delete_conversation] takes its
    id as text and binds it to the id column. When the text does not bind,
    the lookup raises what the binding raises, not the 404, and the store
    is exactly as it was. When the text binds to an identifier, the route
    raises the 404 and leaves the store as it was if that identifier names
    no conversation owned by the caller; otherwise it returns and, in the
    one resulting store, the conversation row is gone and no message of
    the conversation remains. In no outcome is the store left with one of
    the two deletions only; nothing is added, rows of other conversations
    stay, and the messages of the deleted conversation can no longer be
    read. *)
Theorem delete_conversation_atomic (bind_id : str -> outcome UUID)
    (conversation_id : str) (owner : str) (d : DB) :
  let r := delete_conversation bind_id conversation_id owner d in
  match bind_id conversation_id with
  | Raise e => r = (Raise e, d)
  | Return cid =>
      (¬ owned_by d cid owner ∧ r = (Raise not_found, d))
      ∨ (owned_by d cid owner
         ∧ fst r = Return tt
         ∧ conversations (snd r) = delete cid (conversations d)
         ∧ conversations (snd r) !! cid = None
         ∧ (∀ m, m ∈ messages (snd r) → Message.conversation_id m ≠ cid)
         ∧ (∀ m, m ∈ messages (snd r) → m ∈ messages d)
         ∧ (∀ m, m ∈ messages d →
                 (∀ m', m' ∈ messages d → Message.conversation_id m' = cid →
                        Message.id m' ≠ Message.id m) →
                 m ∈ messages (snd r))
         ∧ get_conversation_messages bind_id conversation_id owner (snd r)
           = (Raise not_found, snd r))
  end.
Proof.
  intros r. subst r. unfold delete_conversation, get_conversation_messages.
  destruct (bind_id conversation_id) as [cid|e]; [|done].
  destruct (select_conversation_of d cid owner) as [c|] eqn:Hsel.
  - right.
    apply select_conversation_of_Some in Hsel as (row & Hrow & Hu & ->).
    simpl. split; [by exists row|]. split; [done|]. split; [done|].
    split; [apply lookup_delete_eq|].
    split; [|split; [|split]].
    + intros m Hm Hc. apply list_elem_of_filter in Hm as [Hid Hm].
      apply Hid. apply list_elem_of_fmap. exists m. split; [done|].
      by apply elem_of_select_messages.
    + intros m Hm. by apply list_elem_of_filter in Hm as [_ Hm].
    + intros m Hm Hids. apply list_elem_of_filter. split; [|done].
      intros (m' & Heq & Hm')%list_elem_of_fmap.
      apply elem_of_select_messages in Hm' as [Hm' Hc].
      by apply (Hids m').
    + unfold select_conversation_of, select_conversation. simpl.
      by rewrite lookup_delete_eq.
  - left. by apply select_conversation_of_None in Hsel.
Qed.

(** C5 at the failing inputs. An id that is no identifier, so that no
    conversation has it: the route raises the binding error and not the
    404, with either column type. The id of a conversation the caller owns, with a column
    type that binds identifier objects only: the route raises again and
    deletes nothing. *)
Lemma delete_conversation_unbound_id :
  delete_conversation bind_parsing (str_of "not-a-uuid") alice sample_db
  = (Raise statement_error, sample_db)
  ∧ delete_conversation bind_objects_only (str_of "not-a-uuid") alice
      sample_db
    = (Raise statement_error, sample_db)
  ∧ delete_conversation bind_objects_only (str_of "1") alice sample_db
    = (Raise statement_error, sample_db)
  ∧ owned_by sample_db 1%N alice
  ∧ statement_error ≠ not_found.
Proof.
  split; [|split; [|split; [|split]]].
  - exact (delete_conversation_atomic bind_parsing (str_of "not-a-uuid")
             alice sample_db).
  - exact (delete_conversation_atomic bind_objects_only
             (str_of "not-a-uuid") alice sample_db).
  - exact (delete_conversation_atomic bind_objects_only (str_of "1") alice
             sample_db).
  - exists (Conversation.mk_row alice 1 2). split; reflexivity.
  - discriminate.
Defined.

Lemma elem_of_select_conversations_of (d : DB) (user_id : str)
    (c : Conversation.t) :
  c ∈ select_conversations_of d user_id ↔
  ∃ row, conversations d !! Conversation.id c = Some row
         ∧ Conversation.row_user_id row = user_id
         ∧ c = Conversation.of_row (Conversation.id c) row.
Proof.
  unfold select_conversations_of, order_by_desc.
  rewrite elem_of_order_by, list_elem_of_filter, list_elem_of_fmap.
  split.
  - intros (Hu & [i row] & -> & Hin). apply elem_of_map_to_list in Hin.
    exists row. simpl in *. done.
  - intros (row & Hrow & Hu & Hc). split.
    + rewrite Hc. done.
    + exists (Conversation.id c, row). split; [done|].
      by apply elem_of_map_to_list.
Qed.

Lemma select_conversations_of_NoDup (d : DB) (user_id : str) :
  NoDup (Conversation.id <$> select_conversations_of d user_id).
Proof.
  unfold select_conversations_of, order_by_desc.
  rewrite order_by_perm.
  assert (NoDup (Conversation.id
                   <$> (uncurry Conversation.of_row
                          <$> map_to_list (conversations d)))) as Hall.
  { rewrite <- list_fmap_compose.
    rewrite (list_fmap_ext _ fst (map_to_list (conversations d)));
      [apply NoDup_fst_map_to_list|].
    by intros ? [i row]. }
  refine (sublist_NoDup _ _ Hall _).
  apply fmap_sublist, sublist_filter.
Qed.

Lemma select_conversations_of_sorted (d : DB) (user_id : str) :
  StronglySorted updated_ge
    (conversation_response d <$> select_conversations_of d user_id).
Proof.
  unfold select_conversations_of, order_by_desc.
  eapply StronglySorted_fmap; [|apply order_by_sorted].
  intros c1 c2. unfold key_le, updated_ge. simpl. lia.
Qed.

(** The preview of a conversation is that of an earliest user message. *)
Lemma first_user_message_earliest (d : DB) (cid : UUID) :
  match first_user_message d cid with
  | Some m => earliest_user_message d cid m
  | None => ∀ m, m ∈ messages d → ¬ user_message_of cid m
  end.
Proof.
  unfold first_user_message.
  destruct (head _) as [m|] eqn:Hhead.
  - apply head_order_by_least in Hhead as [Hin Hleast].
    apply list_elem_of_filter in Hin as [Hp Hin].
    split; [done|]. split; [done|].
    intros m' Hin' Hp'. apply Hleast. by apply list_elem_of_filter.
  - apply head_None, order_by_nil_inv in Hhead.
    intros m Hin Hp.
    eapply (filter_nil_not_elem_of _ _ m); [exact Hhead|exact Hp|exact Hin].
Qed.

(** C8: [list_conversations] returns, without raising, the conversations
    owned by the caller and no other: one entry per owned conversation,
    carrying its id and timestamps, ordered by [updated_at] descending.
    The preview of an entry is the content of an earliest user-role message
    of that conversation cut to its first 80 code points, or the string
    "New conversation" when the conversation has no user-role message. *)
Theorem list_conversations_spec (owner : str) (d : DB) :
  ∃ rs,
    list_conversations owner d = (Return rs, d)
    ∧ NoDup (ConversationResponse.id <$> rs)
    ∧ (∀ r, r ∈ rs →
            ∃ row,
              conversations d !! ConversationResponse.id r = Some row
              ∧ Conversation.row_user_id row = owner
              ∧ ConversationResponse.created_at r
                = Conversation.row_created_at row
              ∧ ConversationResponse.updated_at r
                = Conversation.row_updated_at row)
    ∧ (∀ i row,
         conversations d !! i = Some row →
         Conversation.row_user_id row = owner →
         ∃ r, r ∈ rs ∧ ConversationResponse.id r = i)
    ∧ StronglySorted updated_ge rs
    ∧ (∀ r, r ∈ rs →
            preview_spec d (ConversationResponse.id r)
              (ConversationResponse.preview r)).
Proof.
  exists (conversation_response d <$> select_conversations_of d owner).
  split; [reflexivity|]. split; [|split; [|split; [|split]]].
  - rewrite <- list_fmap_compose.
    rewrite (list_fmap_ext _ Conversation.id (select_conversations_of d owner));
      [apply select_conversations_of_NoDup|done].
  - intros r (c & -> & Hc)%list_elem_of_fmap.
    apply elem_of_select_conversations_of in Hc as (row & Hrow & Hu & Hc).
    exists row. simpl. rewrite Hc. done.
  - intros i row Hrow Hu.
    exists (conversation_response d (Conversation.of_row i row)).
    split; [|done].
    apply list_elem_of_fmap_2, elem_of_select_conversations_of.
    by exists row.
  - apply select_conversations_of_sorted.
  - intros r (c & -> & _)%list_elem_of_fmap. simpl.
    pose proof (first_user_message_earliest d (Conversation.id c)) as Hfirst.
    destruct (first_user_message d (Conversation.id c)) as [m|].
    + right. exists m. split; [done|]. split; [done|].
      rewrite length_take. lia.
    + by left.
Qed.

(* ===================================================================== *)
(** * A whole turn on the sample store *)
(* ===================================================================== *)

(** Alice's turn "buy milk" in her conversation: the reply, the two rows
    appended in order, and the history the agent saw. *)
Example chat_buy_milk :
  let r := chat agent_tool sample_env sample_request alice sample_world in
  fst r = Return (ChatResponse.mk 1%N (str_of "Added.")
                    [tool_call_response_of sample_tool_call])
  ∧ messages (db (snd r))
    = messages sample_db
        ++ [Message.mk 100%N 1%N USER (str_of "buy milk") None 11;
            Message.mk 101%N 1%N ASSISTANT (str_of "Added.")
              (Some [tool_call_dict_of sample_tool_call]) 13]
  ∧ conversations (db (snd r)) !! 1%N = Some (Conversation.mk_row alice 1 14)
  ∧ agent_calls (snd r)
    = [mk_agent_call alice (str_of "buy milk")
         [mk_history_entry (str_of "user") (str_of "hello there")]].
Proof. vm_compute. repeat split. Qed.

(** The preview shown for that conversation stays the first user message. *)
Example list_conversations_preview :
  let r := chat agent_tool sample_env sample_request alice sample_world in
  fst (list_conversations alice (db (snd r)))
  = Return [ConversationResponse.mk 1%N 1 14 (str_of "hello there")].
Proof. vm_compute. reflexivity. Qed.

(* ===================================================================== *)
(** * Further properties: reading a conversation *)
(* ===================================================================== *)

(** [get_conversation_messages] takes its id as text and checks ownership
    on the read. When the text does not bind to the id column, the lookup
    raises what the binding raises. When it binds to an identifier, the
    route raises the 404 if that identifier names no conversation owned by
    the caller; otherwise it returns the text it was given and exactly the
    messages of the conversation, oldest first, each with its id, role,
    content, creation time and its tool-call record as stored. The store
    is never changed. *)
Theorem get_conversation_messages_spec (bind_id : str -> outcome UUID)
    (conversation_id : str) (owner : str) (d : DB) :
  let r := get_conversation_messages bind_id conversation_id owner d in
  snd r = d
  ∧ match bind_id conversation_id with
    | Raise e => fst r = Raise e
    | Return cid =>
        (¬ owned_by d cid owner ∧ fst r = Raise not_found)
        ∨ (owned_by d cid owner
           ∧ ∃ ms,
               fst r = Return (ConversationMessagesResponse.mk conversation_id
                                 (message_response <$> ms))
               ∧ ms ≡ₚ filter (fun m => Message.conversation_id m = cid)
                         (messages d)
               ∧ StronglySorted created_le ms
               ∧ Forall2 (fun m r =>
                            MessageResponse.id r = Message.id m
                            ∧ MessageResponse.role r = value (Message.role m)
                            ∧ MessageResponse.content r = Message.content m
                            ∧ MessageResponse.tool_calls r
                              = Message.tool_calls m
                            ∧ MessageResponse.created_at r
                              = Message.created_at m)
                   ms (message_response <$> ms))
    end.
Proof.
  intros r. subst r. unfold get_conversation_messages.
  destruct (bind_id conversation_id) as [cid|e]; [|done].
  destruct (select_conversation_of d cid owner) as [c|] eqn:Hsel.
  - split; [done|]. right.
    apply select_conversation_of_Some in Hsel as (row & Hrow & Hu & _).
    split; [by exists row|].
    exists (order_by Message.created_at (select_messages d cid)).
    split; [done|]. split; [apply order_by_perm|].
    split; [apply order_by_sorted|].
    apply Forall2_fmap_r, Forall_Forall2_diag, Forall_forall. done.
  - split; [done|]. left. by apply select_conversation_of_None in Hsel.
Qed.

(* ===================================================================== *)
(** * Further properties: the conversation registry *)
(* ===================================================================== *)

Lemma select_conversations_of_insert (d : DB) (i : UUID)
    (r : Conversation.row) (ms : list Message.t) (user_id : str) :
  conversations d !! i = None →
  select_conversations_of (mk_DB (<[i := r]> (conversations d)) ms) user_id
  ≡ₚ (if decide (Conversation.row_user_id r = user_id)
      then [Conversation.of_row i r] else [])
     ++ select_conversations_of d user_id.
Proof.
  intros Hfresh. unfold select_conversations_of, order_by_desc.
  rewrite !order_by_perm. simpl.
  rewrite (map_to_list_insert _ _ _ Hfresh). csimpl.
  rewrite filter_cons. simpl. by case_decide.
Qed.

(** Without a conversation id a new conversation is always created, even
    when the caller already owns some: the caller's directory grows by
    exactly one entry, the directories of the other users keep their
    length, no stored row is changed and no message is written. [uuid4]
    is the identifier drawn, free in the store. *)
Theorem get_or_create_conversation_always_creates (now : datetime)
    (uuid4 : UUID) (user : str) (d : DB) :
  conversations d !! uuid4 = None →
  ∃ conv d',
    get_or_create_conversation now uuid4 user None d = (Return conv, d')
    ∧ Conversation.user_id conv = user
    ∧ select_conversation d' (Conversation.id conv) = Some conv
    ∧ select_conversation d (Conversation.id conv) = None
    ∧ (∀ i r, conversations d !! i = Some r → conversations d' !! i = Some r)
    ∧ messages d' = messages d
    ∧ (∃ rs rs',
         list_conversations user d = (Return rs, d)
         ∧ list_conversations user d' = (Return rs', d')
         ∧ length rs' = S (length rs))
    ∧ (∀ other, other ≠ user →
         ∃ rs rs',
           list_conversations other d = (Return rs, d)
           ∧ list_conversations other d' = (Return rs', d')
           ∧ length rs' = length rs).
Proof.
  intros Hfresh.
  eexists _, _. split.
  { apply get_or_create_conversation_creates; [done|]. by intros ? [=]. }
  simpl. unfold select_conversation; simpl.
  rewrite lookup_insert_eq, Hfresh. simpl.
  split; [done|]. split; [done|]. split; [done|].
  split; [|split; [done|split]].
  - intros i r Hr. rewrite lookup_insert_ne; [done|].
    intros ->. by rewrite Hfresh in Hr.
  - eexists _, _. split; [reflexivity|]. split; [reflexivity|].
    rewrite !length_fmap.
    rewrite (select_conversations_of_insert d uuid4 _ _ user Hfresh). simpl.
    by rewrite decide_True.
  - intros other Hne.
    eexists _, _. split; [reflexivity|]. split; [reflexivity|].
    rewrite !length_fmap.
    rewrite (select_conversations_of_insert d uuid4 _ _ other Hfresh). simpl.
    by rewrite decide_False.
Qed.

(** An instance: alice opens a second conversation. *)
Lemma get_or_create_conversation_always_creates_witness :
  conversations sample_db !! 7%N = None
  ∧ ∃ conv d',
      get_or_create_conversation 10 7%N alice None sample_db = (Return conv, d')
      ∧ ∃ rs', list_conversations alice d' = (Return rs', d')
               ∧ length rs' = 2%nat.
Proof.
  assert (conversations sample_db !! 7%N = None) as H by reflexivity.
  split; [exact H|].
  destruct (get_or_create_conversation_always_creates 10 7%N alice sample_db H)
    as (conv & d' & Hrun & _ & _ & _ & _ & _ & (rs & rs' & H1 & H2 & Hlen) & _).
  exists conv, d'. split; [exact Hrun|].
  exists rs'. split; [exact H2|].
  rewrite Hlen. injection H1 as <-. reflexivity.
Defined.

(** Create, then resolve: the id returned by a creation resolves, for the
    same owner, to the conversation that was created, whatever clock
    reading and identifier the second call draws, and the second call
    writes nothing. *)
Theorem get_or_create_conversation_round_trip (now now' : datetime)
    (uuid4 uuid4' : UUID) (user : str) (conversation_id : option UUID)
    (d d' : DB) (conv : Conversation.t) :
  conversations d !! uuid4 = None →
  (∀ cid, conversation_id = Some cid → ¬ owned_by d cid user) →
  get_or_create_conversation now uuid4 user conversation_id d
  = (Return conv, d') →
  get_or_create_conversation now' uuid4' user (Some (Conversation.id conv)) d'
  = (Return conv, d').
Proof.
  intros Hfresh Hnot Hrun.
  rewrite (get_or_create_conversation_creates now uuid4 user conversation_id d
             Hfresh Hnot) in Hrun.
  injection Hrun as <- <-. unfold get_or_create_conversation.
  assert (select_conversation_of
            (mk_DB (<[uuid4 := Conversation.mk_row user now now]>
                      (conversations d)) (messages d)) uuid4 user
          = Some (Conversation.mk uuid4 user now now)) as Hsel.
  { apply select_conversation_of_Some.
    exists (Conversation.mk_row user now now). simpl.
    by rewrite lookup_insert_eq. }
  simpl. by rewrite Hsel.
Qed.

(** An instance: bob's first conversation is found again on his next turn. *)
Lemma get_or_create_conversation_round_trip_witness :
  conversations sample_db !! 7%N = None
  ∧ get_or_create_conversation 30 8%N bob (Some 7%N)
      (snd (get_or_create_conversation 10 7%N bob None sample_db))
    = (Return (Conversation.mk 7%N bob 10 10),
       snd (get_or_create_conversation 10 7%N bob None sample_db)).
Proof.
  assert (conversations sample_db !! 7%N = None) as H by reflexivity.
  split; [exact H|].
  apply (get_or_create_conversation_round_trip 10 30 7%N 8%N bob None
           sample_db _ (Conversation.mk 7%N bob 10 10) H).
  - intros cid Hcid. discriminate Hcid.
  - reflexivity.
Defined.

(* ===================================================================== *)
(** * Further properties: the message store *)
(* ===================================================================== *)

Lemma insert_by_snoc {A} (key : A -> Z) (y x : A) (s : list A) :
  key y <= key x → insert_by key y (s ++ [x]) = insert_by key y s ++ [x].
Proof.
  intros Hle. induction s as [|z s IH]; simpl.
  - by rewrite (proj2 (Z.leb_le _ _) Hle).
  - destruct (key y <=? key z); [done|]. by rewrite IH.
Qed.

(** A row that is not older than the others is ordered last. *)
Lemma order_by_snoc {A} (key : A -> Z) (l : list A) (x : A) :
  (∀ y, y ∈ l → key y <= key x) →
  order_by key (l ++ [x]) = order_by key l ++ [x].
Proof.
  induction l as [|y l IH]; intros Hle; simpl; [done|].
  fold (order_by key (l ++ [x])) (order_by key l).
  rewrite IH by (intros z Hz; apply Hle; by right).
  apply insert_by_snoc, Hle. by left.
Qed.

Lemma select_messages_snoc (cs : gmap N Conversation.row)
    (ms : list Message.t) (m : Message.t) (cid : UUID) :
  select_messages (mk_DB cs (ms ++ [m])) cid
  = filter (fun m' => Message.conversation_id m' = cid) ms
    ++ (if decide (Message.conversation_id m = cid) then [m] else []).
Proof.
  unfold select_messages. simpl. rewrite filter_app. f_equal.
Qed.

(** Save, then project. When [save_message] is given an unused identifier
    it returns, and the new message is part of the projection of its
    conversation from then on: the projection gains exactly the entry of
    the new message, at its end when no message of the conversation is
    younger than the new one. The projection of every other conversation
    is what it was. *)
Theorem save_message_then_history (now touch_now : datetime)
    (uuid4 cid : UUID) (role : MessageRole) (content : str)
    (tool_calls : option (list tool_call_dict)) (d : DB) :
  message_id_used d uuid4 = false →
  ∃ msg d' h h',
    save_message now touch_now uuid4 cid role content tool_calls d
    = (Return msg, d')
    ∧ load_conversation_history cid d = (Return h, d)
    ∧ load_conversation_history cid d' = (Return h', d')
    ∧ h' ≡ₚ mk_history_entry (value role) content :: h
    ∧ ((∀ m, m ∈ messages d → Message.conversation_id m = cid →
             Message.created_at m <= now) →
       h' = h ++ [mk_history_entry (value role) content])
    ∧ (∀ cid', cid' ≠ cid →
         fst (load_conversation_history cid' d')
         = fst (load_conversation_history cid' d)).
Proof.
  intros Hfresh.
  destruct (save_message_cases now touch_now uuid4 cid role content
              tool_calls d) as [[Hu _]|[_ Hrun]]; [congruence|].
  eexists _, _, _, _. split; [exact Hrun|].
  split; [reflexivity|]. split; [reflexivity|].
  rewrite select_messages_snoc. simpl. rewrite decide_True by done.
  fold (select_messages d cid).
  split; [|split].
  - rewrite !order_by_perm, fmap_app. simpl.
    rewrite <- Permutation_cons_append. done.
  - intros Hclock. rewrite order_by_snoc, fmap_app; [done|].
    intros m Hm. apply elem_of_select_messages in Hm as [Hm Hc]. simpl.
    by apply Hclock.
  - intros cid' Hne. unfold load_conversation_history. simpl.
    rewrite select_messages_snoc. simpl.
    rewrite decide_False by done. by rewrite app_nil_r.
Qed.

(** An instance: the assistant answers in alice's conversation. *)
Lemma save_message_then_history_witness :
  message_id_used sample_db 60%N = false
  ∧ fst (load_conversation_history 1%N
           (snd (save_message 20 21 60%N 1%N ASSISTANT (str_of "hi alice")
                   None sample_db)))
    = Return [mk_history_entry (str_of "user") (str_of "hello there");
              mk_history_entry (str_of "assistant") (str_of "hi alice")].
Proof.
  assert (message_id_used sample_db 60%N = false) as H by reflexivity.
  split; [exact H|].
  destruct (save_message_then_history 20 21 60%N 1%N ASSISTANT
              (str_of "hi alice") None sample_db H)
    as (msg & d' & h & h' & Hrun & Hh & Hh' & _ & Hlast & _).
  rewrite Hrun. cbn [snd]. rewrite Hh'. cbn [fst].
  rewrite Hlast.
  - injection Hh as <-. reflexivity.
  - intros m Hm _. apply list_elem_of_singleton in Hm. subst m. simpl. lia.
Defined.

(** What [save_message] leaves alone: whatever its outcome, it creates and
    removes no conversation, changes the owner and the creation time of
    none, and changes no row but the one of the conversation it is given;
    it removes and changes no stored message. *)
Theorem save_message_frame (now touch_now : datetime) (uuid4 cid : UUID)
    (role : MessageRole) (content : str)
    (tool_calls : option (list tool_call_dict)) (d : DB) :
  let d' :=
    snd (save_message now touch_now uuid4 cid role content tool_calls d) in
  (∀ i owner, owned_by d' i owner ↔ owned_by d i owner)
  ∧ (∀ i, i ≠ cid → conversations d' !! i = conversations d !! i)
  ∧ (∀ r, conversations d !! cid = Some r →
          ∃ r', conversations d' !! cid = Some r'
                ∧ Conversation.row_user_id r' = Conversation.row_user_id r
                ∧ Conversation.row_created_at r'
                  = Conversation.row_created_at r)
  ∧ (conversations d !! cid = None → conversations d' = conversations d)
  ∧ (∃ new, messages d' = messages d ++ new).
Proof.
  intros d'. subst d'.
  destruct (save_message_cases now touch_now uuid4 cid role content
              tool_calls d) as [[_ ->]|[_ ->]]; simpl.
  - split; [done|]. split; [done|]. split; [by eauto|]. split; [done|].
    exists []. by rewrite app_nil_r.
  - destruct (conversations d !! cid) as [r|] eqn:Hr.
    + split; [|split; [|split; [|split]]].
      * intros i owner. unfold owned_by. simpl.
        destruct (decide (cid = i)) as [<-|Hne].
        -- rewrite lookup_insert_eq, Hr. split.
           ++ intros (r' & [= <-] & Hu). by exists r.
           ++ intros (r' & [= <-] & Hu). by eexists.
        -- by rewrite lookup_insert_ne.
      * intros i Hne. by rewrite lookup_insert_ne.
      * intros r0 [= <-]. rewrite lookup_insert_eq. by eexists.
      * done.
      * by eexists.
    + split; [done|]. split; [done|]. split; [done|]. split; [done|].
      by eexists.
Qed.

(* ===================================================================== *)
(** * Further properties: whole turns *)
(* ===================================================================== *)

(** The conversation a turn works on: resolved, created or refused. *)
Lemma get_or_create_conversation_cases (now : datetime) (uuid4 : UUID)
    (user : str) (conversation_id : option UUID) (d : DB) :
  (∃ conv, get_or_create_conversation now uuid4 user conversation_id d
           = (Return conv, d)
           ∧ select_conversation_of d (Conversation.id conv) user = Some conv)
  ∨ (conversations d !! uuid4 = None
     ∧ get_or_create_conversation now uuid4 user conversation_id d
       = (Return (Conversation.mk uuid4 user now now),
          mk_DB (<[uuid4 := Conversation.mk_row user now now]>
                   (conversations d)) (messages d)))
  ∨ get_or_create_conversation now uuid4 user conversation_id d
    = (Raise IntegrityError, d).
Proof.
  unfold get_or_create_conversation.
  destruct conversation_id as [cid|].
  - destruct (select_conversation_of d cid user) as [c|] eqn:Hsel.
    + left. exists c. split; [done|].
      pose proof Hsel as Hsel'.
      apply select_conversation_of_Some in Hsel' as (row & _ & _ & ->).
      exact Hsel.
    + destruct (conversations d !! uuid4); [by right; right|by right; left].
  - destruct (conversations d !! uuid4); [by right; right|by right; left].
Qed.

(** The conversation of a turn belongs to the caller, and resolving it
    leaves the conversations of the other users as they are. *)
Lemma get_or_create_conversation_owner (now : datetime) (uuid4 : UUID)
    (user : str) (conversation_id : option UUID) (d d1 : DB)
    (conv : Conversation.t) :
  get_or_create_conversation now uuid4 user conversation_id d
  = (Return conv, d1) →
  owned_by d1 (Conversation.id conv) user
  ∧ messages d1 = messages d
  ∧ ∀ i row, conversations d !! i = Some row →
             Conversation.row_user_id row ≠ user →
             Conversation.id conv ≠ i ∧ conversations d1 !! i = Some row.
Proof.
  intros Hrun.
  destruct (get_or_create_conversation_cases now uuid4 user conversation_id d)
    as [(c & Hc & Hsel)|[[Hfresh Hc]|Hc]];
    rewrite Hc in Hrun; [| |discriminate Hrun]; injection Hrun as <- <-.
  - apply select_conversation_of_Some in Hsel as (row & Hrow & Hu & Hceq).
    split; [by exists row|]. split; [done|].
    intros i row' Hrow' Hne. split; [|done].
    intros <-. rewrite Hrow in Hrow'. by injection Hrow' as <-.
  - simpl. split.
    { exists (Conversation.mk_row user now now).
      simpl. by rewrite lookup_insert_eq. }
    split; [done|].
    intros i row Hrow Hne.
    assert (uuid4 ≠ i) as Hi by (intros <-; by rewrite Hfresh in Hrow).
    split; [done|]. by rewrite lookup_insert_ne.
Qed.

Lemma get_or_create_conversation_raise (now : datetime) (uuid4 : UUID)
    (user : str) (conversation_id : option UUID) (d d1 : DB) (e : exn) :
  get_or_create_conversation now uuid4 user conversation_id d = (Raise e, d1) →
  d1 = d.
Proof.
  intros Hrun.
  destruct (get_or_create_conversation_cases now uuid4 user conversation_id d)
    as [(c & Hc & _)|[[_ Hc]|Hc]];
    rewrite Hc in Hrun; by injection Hrun.
Qed.

(** A message write in one conversation is invisible in every other. *)
Lemma save_message_other (now touch_now : datetime) (uuid4 cid : UUID)
    (role : MessageRole) (content : str)
    (tool_calls : option (list tool_call_dict)) (d : DB) (i : UUID) :
  i ≠ cid →
  let d' :=
    snd (save_message now touch_now uuid4 cid role content tool_calls d) in
  conversations d' !! i = conversations d !! i
  ∧ select_messages d' i = select_messages d i.
Proof.
  intros Hne d'. subst d'.
  destruct (save_message_cases now touch_now uuid4 cid role content
              tool_calls d) as [[_ ->]|[_ ->]]; simpl; [done|].
  split.
  - destruct (conversations d !! cid); [|done].
    by rewrite lookup_insert_ne.
  - rewrite select_messages_snoc. simpl.
    rewrite decide_False by done. by rewrite app_nil_r.
Qed.

Lemma save_message_owned (now touch_now : datetime) (uuid4 cid : UUID)
    (role : MessageRole) (content : str)
    (tool_calls : option (list tool_call_dict)) (d : DB) (i : UUID)
    (owner : str) :
  owned_by d i owner →
  owned_by
    (snd (save_message now touch_now uuid4 cid role content tool_calls d))
    i owner.
Proof.
  intros (r & Hr & Hu).
  destruct (save_message_cases now touch_now uuid4 cid role content
              tool_calls d) as [[_ ->]|[_ ->]]; simpl; [by exists r|].
  unfold owned_by. simpl.
  destruct (conversations d !! cid) as [r0|] eqn:Hr0; [|by exists r].
  destruct (decide (cid = i)) as [<-|Hne].
  - rewrite lookup_insert_eq. eexists. split; [done|]. simpl. congruence.
  - rewrite lookup_insert_ne by done. by exists r.
Qed.

(** The store a turn leaves behind: the one it found, or the one after
    resolve-or-create and then one or two message writes in the resolved
    conversation. *)
Lemma chat_db_cases
    (run_agent : str -> str -> list history_entry -> outcome AgentResponse.t)
    (env : turn_env) (request : ChatRequest.t) (user : str) (w : World) :
  let message := strip (ChatRequest.message request) in
  let w' := snd (chat run_agent env request user w) in
  db w' = db w
  ∨ ∃ conv d1,
      get_or_create_conversation (conv_now env) (conv_uuid env) user
        (ChatRequest.conversation_id request) (db w) = (Return conv, d1)
      ∧ let d2 :=
          snd (save_message (user_msg_now env) (user_touch_now env)
                 (user_msg_uuid env) (Conversation.id conv) USER message
                 None d1) in
        db w' = d2
        ∨ ∃ content tool_calls,
            db w'
            = snd (save_message (asst_msg_now env) (asst_touch_now env)
                     (asst_msg_uuid env) (Conversation.id conv) ASSISTANT
                     content tool_calls d2).
Proof.
  intros message w'. subst w'. rewrite chat_unfold. cbv zeta. fold message.
  case_bool_decide; [by left|].
  destruct (get_or_create_conversation _ _ _ _ _) as [[conv|e] d1] eqn:Hres.
  - right. exists conv, d1. split; [done|].
    destruct (save_message _ _ _ _ USER _ _ d1) as [[umsg|e] d2]; simpl;
      [|by left].
    destruct (run_agent _ _ _) as [resp|e]; [|by left].
    right.
    exists (AgentResponse.content resp),
      match AgentResponse.tool_calls resp with
      | [] => None
      | tcs => Some (tool_call_dict_of <$> tcs)
      end.
    by destruct (save_message _ _ _ _ ASSISTANT _ _ d2) as [[amsg|e] d3].
  - left. simpl. by eapply get_or_create_conversation_raise.
Qed.

(** Isolation of a whole turn: whatever conversation id the caller passes
    and whatever the agent does, a turn changes nothing in a conversation
    owned by somebody else; its row, [updated_at] included, and its
    messages are what they were. *)
Theorem chat_leaves_other_owners_alone
    (run_agent : str -> str -> list history_entry -> outcome AgentResponse.t)
    (env : turn_env) (request : ChatRequest.t) (user : str) (w : World)
    (i : UUID) (row : Conversation.row) :
  conversations (db w) !! i = Some row →
  Conversation.row_user_id row ≠ user →
  let w' := snd (chat run_agent env request user w) in
  conversations (db w') !! i = Some row
  ∧ select_messages (db w') i = select_messages (db w) i.
Proof.
  intros Hrow Hne w'. subst w'.
  destruct (chat_db_cases run_agent env request user w)
    as [->|(conv & d1 & Hres & Hdb)]; [done|].
  destruct (get_or_create_conversation_owner _ _ _ _ _ _ _ Hres)
    as (_ & Hms & Hother).
  destruct (Hother i row Hrow Hne) as [Hi Hrow1].
  assert (select_messages d1 i = select_messages (db w) i) as Hsel1.
  { unfold select_messages. by rewrite Hms. }
  cbv zeta in Hdb.
  pose proof (save_message_other (user_msg_now env) (user_touch_now env)
                (user_msg_uuid env) (Conversation.id conv) USER
                (strip (ChatRequest.message request)) None d1 i
                (not_eq_sym Hi)) as [Hc2 Hs2].
  destruct Hdb as [->|(content & tool_calls & ->)].
  - by rewrite Hc2, Hs2.
  - match goal with
    | |- context [save_message ?a ?b ?c ?j ASSISTANT ?x ?y ?d2] =>
        pose proof (save_message_other a b c j ASSISTANT x y d2 i
                      (not_eq_sym Hi)) as [Hc3 Hs3]
    end.
    by rewrite Hc3, Hs3, Hc2, Hs2.
Qed.

(** An instance: bob sends a turn with the id of alice's conversation. *)
Lemma chat_leaves_other_owners_alone_witness :
  conversations sample_db !! 1%N = Some (Conversation.mk_row alice 1 2)
  ∧ select_messages
      (db (snd (chat agent_tool sample_env sample_request bob sample_world)))
      1%N
    = select_messages sample_db 1%N.
Proof.
  assert (conversations (db sample_world) !! 1%N
          = Some (Conversation.mk_row alice 1 2)) as H1 by reflexivity.
  assert (Conversation.row_user_id (Conversation.mk_row alice 1 2) ≠ bob)
    as H2 by (vm_compute; discriminate).
  split; [exact H1|].
  exact (proj2 (chat_leaves_other_owners_alone agent_tool sample_env
                  sample_request bob sample_world 1%N _ H1 H2)).
Defined.

(** The only exception that leaves [chat] is an [HTTPException]: storage
    errors and agent errors never reach the caller as they are. When the
    agent raises no [HTTPException] of its own, the failure is the 400
    rejection of a blank message or the generic 500. *)
Theorem chat_raises_only_http
    (run_agent : str -> str -> list history_entry -> outcome AgentResponse.t)
    (env : turn_env) (request : ChatRequest.t) (user : str) (w : World)
    (e : exn) :
  fst (chat run_agent env request user w) = Raise e →
  (∃ status detail, e = HTTPException status detail)
  ∧ ((∀ u m h status detail,
        run_agent u m h ≠ Raise (HTTPException status detail)) →
     (e = HTTPException 400 detail_400
      ∧ strip (ChatRequest.message request) = [])
     ∨ (e = generic_failure
        ∧ strip (ChatRequest.message request) ≠ [])).
Proof.
  assert (∀ e0, ∃ status detail, surfaced e0 = HTTPException status detail)
    as Hhttp.
  { intros [status detail| |info]; simpl; by eexists _, _. }
  assert (∀ e0, (∀ status detail, e0 ≠ HTTPException status detail) →
                surfaced e0 = generic_failure) as Hgen.
  { intros [status detail| |info] H0; try done. by destruct (H0 status detail). }
  rewrite chat_unfold. cbv zeta.
  case_bool_decide as Hblank.
  { simpl. intros [= <-]. split; [by eexists _, _|]. intros _. by left. }
  destruct (get_or_create_conversation_cases (conv_now env) (conv_uuid env)
              user (ChatRequest.conversation_id request) (db w))
    as [(c & -> & _)|[[_ ->]| ->]];
    [| |simpl; intros [= <-]; split; [by eexists _, _|by right]].
  all: match goal with
       | |- context [save_message ?a ?b ?c ?i USER ?x ?y ?d1] =>
           destruct (save_message_cases a b c i USER x y d1)
             as [[_ ->]|[_ ->]]
       end;
    [simpl; intros [= <-]; split; [by eexists _, _|by right]|].
  all: destruct (run_agent _ _ _) as [resp|e0] eqn:Hagent;
    [|simpl; intros [= <-]; split; [apply Hhttp|];
      intros Hnot; right; split; [|done];
      apply Hgen; intros status detail ->; by eapply Hnot].
  all: match goal with
       | |- context [save_message ?a ?b ?c ?i ASSISTANT ?x ?y ?d2] =>
           destruct (save_message_cases a b c i ASSISTANT x y d2)
             as [[_ ->]|[_ ->]]
       end; simpl; [|done].
  all: intros [= <-]; split; [by eexists _, _|by right].
Qed.

(** An instance: the agent fails with an ordinary exception. *)
Lemma chat_raises_only_http_witness :
  fst (chat agent_error sample_env sample_request alice sample_world)
  = Raise generic_failure
  ∧ ∃ status detail, generic_failure = HTTPException status detail.
Proof.
  assert (fst (chat agent_error sample_env sample_request alice sample_world)
          = Raise generic_failure) as H by (vm_compute; reflexivity).
  split; [exact H|].
  exact (proj1 (chat_raises_only_http agent_error sample_env sample_request
                  alice sample_world generic_failure H)).
Defined.

(** A turn that returns answers in a conversation of the caller: the
    conversation id of the response names, in the store the turn leaves, a
    conversation owned by the caller, and the response carries the content
    and the tool calls the agent returned for the trimmed message. *)
Theorem chat_response_conversation_owned
    (run_agent : str -> str -> list history_entry -> outcome AgentResponse.t)
    (env : turn_env) (request : ChatRequest.t) (user : str) (w : World)
    (resp : ChatResponse.t) :
  fst (chat run_agent env request user w) = Return resp →
  owned_by (db (snd (chat run_agent env request user w)))
    (ChatResponse.conversation_id resp) user
  ∧ ∃ history answer,
      run_agent user (strip (ChatRequest.message request)) history
      = Return answer
      ∧ ChatResponse.response resp = AgentResponse.content answer
      ∧ ChatResponse.tool_calls resp
        = tool_call_response_of <$> AgentResponse.tool_calls answer.
Proof.
  rewrite chat_unfold. cbv zeta.
  case_bool_decide as Hblank; [done|].
  destruct (get_or_create_conversation _ _ _ _ _) as [[conv|e] d1] eqn:Hres;
    [|done].
  destruct (get_or_create_conversation_owner _ _ _ _ _ _ _ Hres)
    as (Howned & _ & _).
  pose proof (save_message_owned (user_msg_now env) (user_touch_now env)
                (user_msg_uuid env) (Conversation.id conv) USER
                (strip (ChatRequest.message request)) None d1 _ _ Howned)
    as Howned2.
  destruct (save_message _ _ _ _ USER _ _ d1) as [[umsg|e] d2]; [|done].
  simpl in Howned2.
  destruct (run_agent _ _ _) as [answer|e] eqn:Hagent; [|done].
  pose proof (save_message_owned (asst_msg_now env) (asst_touch_now env)
                (asst_msg_uuid env) (Conversation.id conv) ASSISTANT
                (AgentResponse.content answer)
                match AgentResponse.tool_calls answer with
                | [] => None
                | tcs => Some (tool_call_dict_of <$> tcs)
                end d2 _ _ Howned2) as Howned3.
  destruct (save_message _ _ _ _ ASSISTANT _ _ d2) as [[amsg|e] d3]; [|done].
  simpl in *. intros [= <-]. simpl. split; [done|].
  by eexists _, _.
Qed.

(** An instance: alice's turn in her conversation. *)
Lemma chat_response_conversation_owned_witness :
  fst (chat agent_tool sample_env sample_request alice sample_world)
  = Return (ChatResponse.mk 1%N (str_of "Added.")
              [tool_call_response_of sample_tool_call])
  ∧ owned_by
      (db (snd (chat agent_tool sample_env sample_request alice sample_world)))
      1%N alice.
Proof.
  assert (fst (chat agent_tool sample_env sample_request alice sample_world)
          = Return (ChatResponse.mk 1%N (str_of "Added.")
                      [tool_call_response_of sample_tool_call])) as H
    by (vm_compute; reflexivity).
  split; [exact H|].
  exact (proj1 (chat_response_conversation_owned agent_tool sample_env
                  sample_request alice sample_world _ H)).
Defined.

(** A turn that returns extends the history by its own exchange: with
    clock readings that do not run behind the stored messages, the
    projection of the conversation after the turn is the projection the
    agent was given followed by the user entry and the assistant entry, in
    that order. *)
Theorem chat_extends_history
    (run_agent : str -> str -> list history_entry -> outcome AgentResponse.t)
    (env : turn_env) (request : ChatRequest.t) (user : str) (w : World)
    (conv : Conversation.t) (d1 : DB) (answer : AgentResponse.t) :
  let message := strip (ChatRequest.message request) in
  let cid := Conversation.id conv in
  let history :=
    history_entry_of
      <$> order_by Message.created_at (select_messages d1 cid) in
  message ≠ [] →
  get_or_create_conversation (conv_now env) (conv_uuid env) user
    (ChatRequest.conversation_id request) (db w) = (Return conv, d1) →
  message_id_used d1 (user_msg_uuid env) = false →
  message_id_used d1 (asst_msg_uuid env) = false →
  asst_msg_uuid env ≠ user_msg_uuid env →
  run_agent user message history = Return answer →
  (∀ m, m ∈ messages d1 → Message.conversation_id m = cid →
        Message.created_at m <= user_msg_now env) →
  user_msg_now env <= asst_msg_now env →
  ∃ w',
    snd (chat run_agent env request user w) = w'
    ∧ load_conversation_history cid d1 = (Return history, d1)
    ∧ load_conversation_history cid (db w')
      = (Return (history
                   ++ [mk_history_entry (value USER) message;
                       mk_history_entry (value ASSISTANT)
                         (AgentResponse.content answer)]),
         db w').
Proof.
  intros message cid history Hmsg Hres Hf1 Hf2 Hne Hagent Hclock Hle.
  destruct (chat_agent_returns run_agent env request user w conv d1 answer
              Hmsg Hres Hf1 Hf2 Hne Hagent) as (w' & Hrun & Hms).
  exists w'. rewrite Hrun. split; [done|]. split; [done|].
  unfold load_conversation_history. f_equal. f_equal.
  destruct (get_or_create_conversation_owner _ _ _ _ _ _ _ Hres)
    as (_ & Hms1 & _).
  unfold select_messages at 1. rewrite Hms, <- Hms1.
  rewrite filter_app, !filter_cons, filter_nil.
  simpl. rewrite !decide_True by done.
  fold (select_messages d1 cid).
  rewrite cons_middle, app_assoc.
  rewrite order_by_snoc.
  - rewrite order_by_snoc.
    + rewrite !fmap_app, <- app_assoc. done.
    + intros m Hm. apply elem_of_select_messages in Hm as [Hm Hc].
      simpl. by apply Hclock.
  - intros m Hm. apply elem_of_app in Hm as [Hm|Hm].
    + apply elem_of_select_messages in Hm as [Hm Hc].
      simpl. specialize (Hclock m Hm Hc). lia.
    + apply list_elem_of_singleton in Hm. subst m. simpl. lia.
Qed.

(** An instance: alice's turn extends her one-message history by two. *)
Lemma chat_extends_history_witness :
  strip (ChatRequest.message sample_request) ≠ []
  ∧ 11 <= 13
  ∧ fst (load_conversation_history 1%N
           (db (snd (chat agent_tool sample_env sample_request alice
                       sample_world))))
    = Return [mk_history_entry (str_of "user") (str_of "hello there");
              mk_history_entry (str_of "user") (str_of "buy milk");
              mk_history_entry (str_of "assistant") (str_of "Added.")].
Proof.
  assert (strip (ChatRequest.message sample_request) ≠ []) as H1.
  { vm_compute. discriminate. }
  assert (asst_msg_uuid sample_env ≠ user_msg_uuid sample_env) as H2.
  { vm_compute. discriminate. }
  assert (user_msg_now sample_env <= asst_msg_now sample_env) as H3.
  { vm_compute. discriminate. }
  split; [exact H1|]. split; [exact H3|].
  destruct (chat_extends_history agent_tool sample_env sample_request alice
              sample_world (Conversation.mk 1%N alice 1 2) sample_db
              (AgentResponse.mk (str_of "Added.") [sample_tool_call])
              H1 eq_refl eq_refl eq_refl H2 eq_refl)
    as (w' & Hw & _ & Hload); [|exact H3|].
  - intros m Hm _. apply list_elem_of_singleton in Hm. subst m.
    vm_compute. discriminate.
  - rewrite Hw. cbn [Conversation.id] in Hload. rewrite Hload. reflexivity.
Defined.

(* ===================================================================== *)
(** * Further properties: trimming *)
(* ===================================================================== *)

Lemma lstrip_spec (s : str) :
  ∃ pre, s = pre ++ lstrip s
         ∧ Forall (fun c => isspace c = true) pre
         ∧ ∀ c, head (lstrip s) = Some c → isspace c = false.
Proof.
  induction s as [|c s (pre & Hs & Hpre & Hhead)]; simpl.
  - exists []. by repeat split.
  - destruct (isspace c) eqn:Hc.
    + exists (c :: pre). split; [by rewrite Hs at 1|].
      split; [by constructor|done].
    + exists []. split; [done|]. split; [done|].
      intros c' [= <-]. done.
Qed.

(** The message a turn stores and hands to the agent, and the title a task
    is created with, is the text of the request without its leading and
    trailing whitespace: what is cut off on both sides is whitespace only,
    what is kept neither starts nor ends with whitespace, and nothing is
    kept exactly when the text is made of whitespace only. *)
Theorem strip_spec (s : str) :
  (∃ pre post,
     s = pre ++ strip s ++ post
     ∧ Forall (fun c => isspace c = true) pre
     ∧ Forall (fun c => isspace c = true) post)
  ∧ (∀ c, head (strip s) = Some c → isspace c = false)
  ∧ (∀ c, last (strip s) = Some c → isspace c = false)
  ∧ (strip s = [] ↔ Forall (fun c => isspace c = true) s).
Proof.
  destruct (lstrip_spec s) as (pre & Hs & Hpre & Hhead).
  destruct (lstrip_spec (reverse (lstrip s))) as (q & Hr & Hq & Hlast).
  assert (lstrip s = strip s ++ reverse q) as Ht.
  { unfold strip, rstrip.
    rewrite <- reverse_app, <- Hr. by rewrite reverse_involutive. }
  assert (Forall (fun c => isspace c = true) (reverse q)) as Hq'.
  { by apply Forall_reverse. }
  assert (∀ c, head (strip s) = Some c → isspace c = false) as Hh.
  { intros c Hc. apply Hhead. rewrite Ht, head_app. by rewrite Hc. }
  split; [|split; [|split]].
  - exists pre, (reverse q). split; [|done]. by rewrite <- Ht.
  - exact Hh.
  - intros c Hc. apply Hlast.
    unfold strip, rstrip in Hc. by rewrite last_reverse in Hc.
  - split.
    + intros Hnil. rewrite Hs, Ht, Hnil. simpl.
      apply Forall_app. done.
    + intros Hall. destruct (strip s) as [|c t] eqn:Hstrip; [done|].
      exfalso.
      assert (isspace c = false) as Hc by (by apply Hh).
      rewrite Hs, Ht in Hall.
      apply Forall_app in Hall as [_ Hall].
      apply Forall_app in Hall as [Hall _].
      apply Forall_cons in Hall as [Hall _]. congruence.
Qed.

(* ===================================================================== *)
(** * Further properties: the conversation directory *)
(* ===================================================================== *)

Lemma select_conversations_of_delete (d : DB) (i : UUID)
    (r : Conversation.row) (ms : list Message.t) (user_id : str) :
  conversations d !! i = Some r →
  select_conversations_of d user_id
  ≡ₚ (if decide (Conversation.row_user_id r = user_id)
      then [Conversation.of_row i r] else [])
     ++ select_conversations_of (mk_DB (delete i (conversations d)) ms)
          user_id.
Proof.
  intros Hr. unfold select_conversations_of, order_by_desc.
  rewrite !order_by_perm. simpl.
  rewrite <- (map_to_list_delete _ _ _ Hr). csimpl.
  rewrite filter_cons. simpl. by case_decide.
Qed.

(** Delete, then list: whenever [delete_conversation] returns, its id
    was bound to a conversation of the caller; afterwards the caller's
    directory lists the conversations it listed before except the deleted
    one, and the directory of every other user lists the same
    conversations as before. *)
Theorem delete_conversation_then_list (bind_id : str -> outcome UUID)
    (conversation_id : str) (owner : str) (d : DB) :
  fst (delete_conversation bind_id conversation_id owner d) = Return tt →
  ∃ cid d' rs rs',
    bind_id conversation_id = Return cid
    ∧ owned_by d cid owner
    ∧ snd (delete_conversation bind_id conversation_id owner d) = d'
    ∧ list_conversations owner d = (Return rs, d)
    ∧ list_conversations owner d' = (Return rs', d')
    ∧ ConversationResponse.id <$> rs
      ≡ₚ cid :: (ConversationResponse.id <$> rs')
    ∧ (cid ∉ ConversationResponse.id <$> rs')
    ∧ ∀ other, other ≠ owner →
        ∃ os os',
          list_conversations other d = (Return os, d)
          ∧ list_conversations other d' = (Return os', d')
          ∧ ConversationResponse.id <$> os
            ≡ₚ ConversationResponse.id <$> os'.
Proof.
  unfold delete_conversation.
  destruct (bind_id conversation_id) as [cid|e]; [|done].
  destruct (select_conversation_of d cid owner) as [c|] eqn:Hsel; [|done].
  apply select_conversation_of_Some in Hsel as (row & Hrow & Hu & ->).
  intros _. exists cid. eexists _, _, _.
  split; [done|]. split; [by exists row|]. split; [reflexivity|].
  split; [reflexivity|]. split; [reflexivity|]. simpl.
  assert (∀ d0 u, ConversationResponse.id
                    <$> (conversation_response d0
                           <$> select_conversations_of d0 u)
                  = Conversation.id <$> select_conversations_of d0 u) as Hids.
  { intros d0 u. by rewrite <- list_fmap_compose. }
  split; [|split].
  - rewrite !Hids.
    rewrite (select_conversations_of_delete d cid row
               (filter (fun m => Message.id m
                                 ∉ Message.id <$> select_messages d cid)
                  (messages d)) owner Hrow).
    by rewrite decide_True.
  - rewrite Hids. intros (c & Hc & Hin)%list_elem_of_fmap.
    apply elem_of_select_conversations_of in Hin as (r & Hr & _).
    simpl in Hr. rewrite <- Hc, lookup_delete_eq in Hr. done.
  - intros other Hne. eexists _, _.
    split; [reflexivity|]. split; [reflexivity|].
    rewrite !Hids.
    rewrite (select_conversations_of_delete d cid row
               (filter (fun m => Message.id m
                                 ∉ Message.id <$> select_messages d cid)
                  (messages d)) other Hrow).
    rewrite decide_False by congruence. done.
Qed.

(** An instance, with a column type that parses the text: alice deletes
    the first of her two conversations; her directory keeps the second,
    bob's directory keeps his. *)
Lemma delete_conversation_then_list_witness :
  fst (delete_conversation bind_parsing (str_of "1") alice sample_db2)
  = Return tt
  ∧ ∃ d',
      snd (delete_conversation bind_parsing (str_of "1") alice sample_db2)
      = d'
      ∧ ConversationResponse.id
          <$> match fst (list_conversations alice sample_db2) with
              | Return rs => rs
              | Raise _ => []
              end
        = [2%N; 1%N]
      ∧ ConversationResponse.id
          <$> match fst (list_conversations alice d') with
              | Return rs => rs
              | Raise _ => []
              end
        = [2%N]
      ∧ ConversationResponse.id
          <$> match fst (list_conversations bob d') with
              | Return rs => rs
              | Raise _ => []
              end
        = [3%N].
Proof.
  assert (fst (delete_conversation bind_parsing (str_of "1") alice sample_db2)
          = Return tt) as H by reflexivity.
  split; [exact H|].
  destruct (delete_conversation_then_list bind_parsing (str_of "1") alice
              sample_db2 H)
    as (cid & d' & rs & rs' & _ & _ & Hd' & _).
  exists d'. split; [exact Hd'|]. rewrite <- Hd'.
  split; [|split]; vm_compute; reflexivity.
Defined.

(** The conversation that was written to last is listed first: after a
    message write in a conversation of the owner with a clock reading past
    the [updated_at] of the owner's other conversations, the first entry of
    the owner's directory is that conversation, with that reading as its
    [updated_at]. *)
Theorem save_message_then_list_first (now touch_now : datetime)
    (uuid4 cid : UUID) (role : MessageRole) (content : str)
    (tool_calls : option (list tool_call_dict)) (d : DB) (owner : str) :
  owned_by d cid owner →
  message_id_used d uuid4 = false →
  (∀ i r, i ≠ cid → conversations d !! i = Some r →
          Conversation.row_user_id r = owner →
          Conversation.row_updated_at r < touch_now) →
  ∃ msg d' rs first,
    save_message now touch_now uuid4 cid role content tool_calls d
    = (Return msg, d')
    ∧ list_conversations owner d' = (Return rs, d')
    ∧ head rs = Some first
    ∧ ConversationResponse.id first = cid
    ∧ ConversationResponse.updated_at first = touch_now.
Proof.
  intros (row & Hrow & Hu) Hfresh Hothers.
  destruct (save_message_cases now touch_now uuid4 cid role content
              tool_calls d) as [[Hused _]|[_ Hrun]]; [congruence|].
  rewrite Hrow in Hrun.
  match type of Hrun with
  | _ = (Return ?m, ?dd) => set (msg := m) in *; set (d' := dd) in *
  end.
  set (row' := Conversation.mk_row (Conversation.row_user_id row)
                 (Conversation.row_created_at row) touch_now).
  assert (conversations d' !! cid = Some row') as Hrow'.
  { subst d'. simpl. by rewrite lookup_insert_eq. }
  assert (Conversation.of_row cid row' ∈ select_conversations_of d' owner)
    as Hin.
  { apply elem_of_select_conversations_of. by exists row'. }
  destruct (head (select_conversations_of d' owner)) as [c|] eqn:Hhead;
    [|apply head_None in Hhead; rewrite Hhead in Hin;
      by apply elem_of_nil in Hin].
  exists msg, d',
    (conversation_response d' <$> select_conversations_of d' owner),
    (conversation_response d' c).
  split; [exact Hrun|]. split; [reflexivity|].
  split.
  { pose proof Hhead as [l' Hl']%head_Some. by rewrite Hl'. }
  pose proof Hhead as Hleast.
  unfold select_conversations_of, order_by_desc in Hleast, Hin.
  apply head_order_by_least in Hleast as [Hc Hleast].
  apply elem_of_order_by in Hin.
  specialize (Hleast _ Hin). simpl in Hleast.
  assert (c ∈ select_conversations_of d' owner) as Hc'.
  { by apply head_Some_elem_of. }
  apply elem_of_select_conversations_of in Hc' as (r & Hr & Hur & Hceq).
  destruct (decide (Conversation.id c = cid)) as [Heq|Hne].
  - simpl. split; [done|].
    rewrite Heq, Hrow' in Hr. injection Hr as <-.
    rewrite Hceq. done.
  - exfalso.
    assert (conversations d !! Conversation.id c = Some r) as Hr0.
    { subst d'. simpl in Hr. by rewrite lookup_insert_ne in Hr. }
    specialize (Hothers _ r Hne Hr0 Hur).
    rewrite Hceq in Hleast. simpl in Hleast. lia.
Qed.

(** An instance: alice owns two conversations and the second was active
    last; a reply in the first moves it to the top of her directory, with
    the clock reading of the write as its [updated_at]. *)
Lemma save_message_then_list_first_witness :
  owned_by sample_db2 1%N alice
  ∧ message_id_used sample_db2 60%N = false
  ∧ ConversationResponse.id
      <$> match fst (list_conversations alice sample_db2) with
          | Return rs => rs
          | Raise _ => []
          end
    = [2%N; 1%N]
  ∧ ∃ msg d' rs first,
      save_message 20 21 60%N 1%N ASSISTANT (str_of "hi") None sample_db2
      = (Return msg, d')
      ∧ list_conversations alice d' = (Return rs, d')
      ∧ head rs = Some first
      ∧ ConversationResponse.id first = 1%N
      ∧ ConversationResponse.updated_at first = 21
      ∧ ConversationResponse.id <$> rs = [1%N; 2%N].
Proof.
  assert (owned_by sample_db2 1%N alice) as H1.
  { exists (Conversation.mk_row alice 1 2). split; reflexivity. }
  assert (message_id_used sample_db2 60%N = false) as H2 by reflexivity.
  split; [exact H1|]. split; [exact H2|]. split; [reflexivity|].
  destruct (save_message_then_list_first 20 21 60%N 1%N ASSISTANT
              (str_of "hi") None sample_db2 alice H1 H2)
    as (msg & d' & rs & first & Hrun & Hl & Hh & Hid & Hup).
  - intros i r Hne Hr Hu. unfold sample_db2 in Hr. simpl in Hr.
    apply lookup_insert_Some in Hr as [[<- _]|[_ Hr]]; [done|].
    apply lookup_insert_Some in Hr as [[_ <-]|[_ Hr]]; [simpl; lia|].
    apply lookup_singleton_Some in Hr as [_ <-].
    vm_compute in Hu. discriminate Hu.
  - exists msg, d', rs, first.
    split; [exact Hrun|]. split; [exact Hl|]. split; [exact Hh|].
    split; [exact Hid|]. split; [exact Hup|].
    assert (d' = snd (save_message 20 21 60%N 1%N ASSISTANT (str_of "hi")
                        None sample_db2)) as -> by (by rewrite Hrun).
    assert (rs = match fst (list_conversations alice
                              (snd (save_message 20 21 60%N 1%N ASSISTANT
                                      (str_of "hi") None sample_db2))) with
                 | Return rs0 => rs0
                 | Raise _ => rs
                 end) as -> by (by rewrite Hl).
    vm_compute. reflexivity.
Defined.

(* ===================================================================== *)
(** * Properties of the task endpoints *)
(* ===================================================================== *)

Lemma select_task_of_Some (d : gmap N Task.row) (task_id : UUID)
    (user_id : str) (task : Task.t) :
  select_task_of d task_id user_id = Some task ↔
  ∃ r, d !! task_id = Some r
       ∧ Task.row_user_id r = user_id
       ∧ task = Task.of_row task_id r.
Proof.
  unfold select_task_of.
  destruct (d !! task_id) as [r|] eqn:Hr.
  - case_decide as Hu.
    + split.
      * intros [= <-]. by exists r.
      * intros (r' & [= <-] & _ & ->). done.
    + split; [done|]. intros (r' & [= <-] & Hu' & _). done.
  - split; [done|]. intros (r' & [=] & _).
Qed.

Lemma select_task_of_None (d : gmap N Task.row) (task_id : UUID)
    (user_id : str) :
  select_task_of d task_id user_id = None ↔ ¬ task_owned_by d task_id user_id.
Proof.
  unfold select_task_of, task_owned_by.
  destruct (d !! task_id) as [r|] eqn:Hr.
  - case_decide as Hu.
    + split; [done|]. intros H. destruct H. by exists r.
    + split; [|done]. intros _ (r' & [= <-] & Hu'). done.
  - split; [|done]. intros _ (r' & [=] & _).
Qed.

Lemma elem_of_select_tasks_of (d : gmap N Task.row) (user_id : str)
    (task : Task.t) :
  task ∈ select_tasks_of d user_id ↔
  ∃ r, d !! Task.id task = Some r
       ∧ Task.row_user_id r = user_id
       ∧ task = Task.of_row (Task.id task) r.
Proof.
  unfold select_tasks_of, order_by_desc.
  rewrite elem_of_order_by, list_elem_of_filter, list_elem_of_fmap.
  split.
  - intros (Hu & [i r] & -> & Hin). apply elem_of_map_to_list in Hin.
    exists r. simpl in *. done.
  - intros (r & Hr & Hu & Hc). split.
    + rewrite Hc. done.
    + exists (Task.id task, r). split; [done|].
      by apply elem_of_map_to_list.
Qed.

Lemma select_tasks_of_NoDup (d : gmap N Task.row) (user_id : str) :
  NoDup (Task.id <$> select_tasks_of d user_id).
Proof.
  unfold select_tasks_of, order_by_desc.
  rewrite order_by_perm.
  assert (NoDup (Task.id <$> (uncurry Task.of_row <$> map_to_list d)))
    as Hall.
  { rewrite <- list_fmap_compose.
    rewrite (list_fmap_ext _ fst (map_to_list d));
      [apply NoDup_fst_map_to_list|].
    by intros ? [i r]. }
  refine (sublist_NoDup _ _ Hall _).
  apply fmap_sublist, sublist_filter.
Qed.

Lemma select_tasks_of_delete (d : gmap N Task.row) (i : UUID) (r : Task.row)
    (user_id : str) :
  d !! i = Some r →
  select_tasks_of d user_id
  ≡ₚ (if decide (Task.row_user_id r = user_id)
      then [Task.of_row i r] else [])
     ++ select_tasks_of (delete i d) user_id.
Proof.
  intros Hr. unfold select_tasks_of, order_by_desc.
  rewrite !order_by_perm.
  rewrite <- (map_to_list_delete _ _ _ Hr). csimpl.
  rewrite filter_cons. simpl. by case_decide.
Qed.

Lemma length_completed_split (l : list TaskResponse.t) :
  length l
  = (length (filter (fun r => TaskResponse.is_completed r = true) l)
     + length (filter (fun r => TaskResponse.is_completed r = false) l))%nat.
Proof.
  induction l as [|r l IH]; [done|].
  rewrite !filter_cons. simpl.
  destruct (TaskResponse.is_completed r); simpl; lia.
Qed.

Lemma length_filter_task_responses (l : list Task.t) :
  length (filter (fun r => TaskResponse.is_completed r = true)
            (_task_to_response <$> l))
  = length (filter (fun t => Task.is_completed t = true) l).
Proof.
  induction l as [|t l IH]; [done|].
  csimpl. rewrite !filter_cons. simpl.
  destruct (Task.is_completed t); simpl; by rewrite IH.
Qed.

(** [list_tasks] returns, without raising or writing, the tasks owned by
    the caller and no other, each once, newest first. Its counters count
    the returned list: [total] is its length, [completed] the number of
    its completed tasks and [pending] the number of its open tasks, so
    that [completed + pending = total] and no counter is negative. *)
Theorem list_tasks_spec (owner : str) (d : gmap N Task.row) :
  ∃ resp,
    list_tasks owner d = (Return resp, d)
    ∧ TasksListResponse.total resp
      = Z.of_nat (length (TasksListResponse.tasks resp))
    ∧ TasksListResponse.completed resp
      = Z.of_nat (length (filter (fun r => TaskResponse.is_completed r = true)
                            (TasksListResponse.tasks resp)))
    ∧ TasksListResponse.pending resp
      = Z.of_nat (length (filter (fun r => TaskResponse.is_completed r = false)
                            (TasksListResponse.tasks resp)))
    ∧ TasksListResponse.completed resp + TasksListResponse.pending resp
      = TasksListResponse.total resp
    ∧ NoDup (TaskResponse.id <$> TasksListResponse.tasks resp)
    ∧ (∀ r, r ∈ TasksListResponse.tasks resp ↔
            ∃ row, d !! TaskResponse.id r = Some row
                   ∧ Task.row_user_id row = owner
                   ∧ r = _task_to_response
                           (Task.of_row (TaskResponse.id r) row))
    ∧ StronglySorted task_created_ge (TasksListResponse.tasks resp).
Proof.
  eexists. split; [reflexivity|]. simpl.
  pose proof (length_completed_split
                (_task_to_response <$> select_tasks_of d owner)) as Hsplit.
  rewrite length_filter_task_responses in Hsplit.
  rewrite length_fmap in Hsplit.
  rewrite length_filter_task_responses, length_fmap.
  split; [done|]. split; [done|]. split; [lia|]. split; [lia|].
  split; [|split].
  - rewrite <- list_fmap_compose.
    rewrite (list_fmap_ext _ Task.id (select_tasks_of d owner));
      [apply select_tasks_of_NoDup|done].
  - intros r. rewrite list_elem_of_fmap. split.
    + intros (t & -> & Ht).
      apply elem_of_select_tasks_of in Ht as (row & Hrow & Hu & Ht).
      exists row. simpl. split; [done|]. split; [done|]. by rewrite <- Ht.
    + intros (row & Hrow & Hu & Hr).
      exists (Task.of_row (TaskResponse.id r) row). split; [done|].
      apply elem_of_select_tasks_of. by exists row.
  - unfold select_tasks_of, order_by_desc.
    eapply StronglySorted_fmap; [|apply order_by_sorted].
    intros t1 t2. unfold key_le, task_created_ge. simpl. lia.
Qed.

(** Delete, then list: whenever [delete_task] returns, its id was bound to
    a task of the caller; afterwards the task is gone from the table and
    from the caller's list, the caller's [total] is one less, [completed]
    is one less exactly when the task was completed, and the counters of
    every other user are what they were. *)
Theorem delete_task_then_list (bind_id : str -> outcome UUID)
    (task_id : str) (owner : str) (d : gmap N Task.row) :
  fst (delete_task bind_id task_id owner d) = Return tt →
  ∃ tid row d' before after,
    bind_id task_id = Return tid
    ∧ d !! tid = Some row
    ∧ Task.row_user_id row = owner
    ∧ snd (delete_task bind_id task_id owner d) = d'
    ∧ d' !! tid = None
    ∧ list_tasks owner d = (Return before, d)
    ∧ list_tasks owner d' = (Return after, d')
    ∧ TasksListResponse.total after = TasksListResponse.total before - 1
    ∧ TasksListResponse.completed after
      = TasksListResponse.completed before
        - (if Task.row_is_completed row then 1 else 0)
    ∧ (tid ∉ TaskResponse.id <$> TasksListResponse.tasks after)
    ∧ ∀ other, other ≠ owner →
        ∃ o o',
          list_tasks other d = (Return o, d)
          ∧ list_tasks other d' = (Return o', d')
          ∧ TasksListResponse.total o' = TasksListResponse.total o
          ∧ TasksListResponse.completed o' = TasksListResponse.completed o.
Proof.
  unfold delete_task.
  destruct (bind_id task_id) as [tid|e]; [|done].
  destruct (select_task_of d tid owner) as [task|] eqn:Hsel; [|done].
  apply select_task_of_Some in Hsel as (row & Hrow & Hu & ->).
  intros _. exists tid, row. eexists _, _, _.
  split; [done|]. split; [done|]. split; [done|].
  split; [reflexivity|]. simpl.
  split; [apply lookup_delete_eq|].
  split; [reflexivity|]. split; [reflexivity|]. simpl.
  split; [|split; [|split]].
  - rewrite (select_tasks_of_delete d tid row owner Hrow).
    rewrite decide_True by done. simpl. lia.
  - rewrite (select_tasks_of_delete d tid row owner Hrow).
    rewrite decide_True by done. simpl.
    rewrite filter_cons. simpl.
    destruct (Task.row_is_completed row); simpl; lia.
  - rewrite <- list_fmap_compose.
    intros (t & Ht & Hin)%list_elem_of_fmap.
    apply elem_of_select_tasks_of in Hin as (r & Hr & _).
    simpl in Ht. rewrite <- Ht, lookup_delete_eq in Hr. done.
  - intros other Hne. eexists _, _.
    split; [reflexivity|]. split; [reflexivity|]. simpl.
    rewrite (select_tasks_of_delete d tid row other Hrow).
    rewrite decide_False by congruence. done.
Qed.

(** An instance, with a column type that parses the text: alice deletes
    her completed task and keeps her open one. *)
Lemma delete_task_then_list_witness :
  fst (delete_task bind_parsing (str_of "1") alice sample_tasks) = Return tt
  ∧ ∃ d' after,
      snd (delete_task bind_parsing (str_of "1") alice sample_tasks) = d'
      ∧ list_tasks alice d' = (Return after, d')
      ∧ TasksListResponse.total after = 1
      ∧ TasksListResponse.completed after = 0.
Proof.
  assert (fst (delete_task bind_parsing (str_of "1") alice sample_tasks)
          = Return tt) as H by reflexivity.
  split; [exact H|].
  destruct (delete_task_then_list bind_parsing (str_of "1") alice
              sample_tasks H)
    as (tid & row & d' & before & after & Hb & Hrow & _ & Hd' & _ & Hbefore
        & Hafter & Htot & Hcomp & _).
  exists d', after. split; [exact Hd'|]. split; [exact Hafter|].
  rewrite Htot, Hcomp.
  assert (tid = 1%N) as -> by (vm_compute in Hb; by injection Hb).
  assert (row = Task.mk_row alice (str_of "buy milk") true 1 5) as ->.
  { vm_compute in Hrow. by injection Hrow. }
  assert (before
          = match fst (list_tasks alice sample_tasks) with
            | Return b => b
            | Raise _ => before
            end) as -> by (by rewrite Hbefore).
  vm_compute. split; reflexivity.
Defined.

Section TaskProperties.

Variable bind_id : str -> outcome UUID.
Variable Task_init : datetime -> UUID -> str -> str -> Task.t.
Variable update_title : datetime -> str -> Task.t -> outcome Task.t.
Variable mark_complete : datetime -> Task.t -> outcome Task.t.

Local Abbreviation create_task' := (create_task Task_init).
Local Abbreviation update_task' :=
  (update_task bind_id update_title mark_complete).
Local Abbreviation toggle_task' := (toggle_task bind_id mark_complete).
Local Abbreviation delete_task' := (delete_task bind_id).

(** [create_task] rejects a title that is blank after trimming with the
    400 and writes nothing. In every outcome it changes and removes no
    stored task; when it returns, the task was stored under an identifier
    that named nothing before, and it is the row built from the caller and
    the trimmed title. *)
Theorem create_task_spec (now : datetime) (uuid4 : UUID)
    (request_title : str) (user : str) (d : gmap N Task.row) :
  let r := create_task' now uuid4 request_title user d in
  (strip request_title = [] → r = (Raise title_empty, d))
  ∧ (∀ i row, d !! i = Some row → snd r !! i = Some row)
  ∧ (∀ resp, fst r = Return resp →
       strip request_title ≠ []
       ∧ d !! TaskResponse.id resp = None
       ∧ snd r !! TaskResponse.id resp
         = Some (Task.to_row
                   (Task_init now uuid4 user (strip request_title)))).
Proof.
  intros r. subst r. unfold create_task, commit_task.
  case_bool_decide as Hblank.
  { split; [done|]. split; [done|]. intros resp [=]. }
  split; [done|].
  destruct (d !! Task.id _) eqn:Hfresh; simpl.
  { split; [done|]. intros resp [=]. }
  split.
  - intros i row Hrow. rewrite lookup_insert_ne; [done|].
    intros Heq. by rewrite Heq, Hrow in Hfresh.
  - intros resp [= <-]. simpl. by rewrite lookup_insert_eq.
Qed.

(** Ownership on every task mutation: when the id does not bind to a task
    owned by the caller, [update_task], [toggle_task] and [delete_task]
    never return and leave the table exactly as it was, whatever the
    request. They raise the 404 when the id binds to an identifier, and
    what the binding raises when it does not. *)
Theorem task_mutations_check_owner (now_title now_complete now : datetime)
    (task_id : str) (request : UpdateTaskRequest.t) (user : str)
    (d : gmap N Task.row) :
  (∀ tid, bind_id task_id = Return tid → ¬ task_owned_by d tid user) →
  ∃ e,
    update_task' now_title now_complete now task_id request user d
    = (Raise e, d)
    ∧ toggle_task' now_complete now task_id user d = (Raise e, d)
    ∧ delete_task' task_id user d = (Raise e, d)
    ∧ (∀ tid, bind_id task_id = Return tid → e = task_not_found)
    ∧ (∀ e', bind_id task_id = Raise e' → e = e').
Proof.
  intros Hnot. unfold update_task, toggle_task, delete_task.
  destruct (bind_id task_id) as [tid|e].
  - specialize (Hnot tid eq_refl). apply select_task_of_None in Hnot.
    rewrite Hnot. exists task_not_found. by repeat split.
  - exists e. repeat split; [done|]. by intros e' [= <-].
Qed.

(** What a task mutation leaves alone: in every outcome, [update_task],
    [toggle_task] and [delete_task] change no row but the one their id
    binds to, and [update_task] and [toggle_task] remove no row. *)
Theorem task_mutations_frame (now_title now_complete now : datetime)
    (task_id : str) (request : UpdateTaskRequest.t) (user : str)
    (d : gmap N Task.row) :
  (∀ i, bind_id task_id ≠ Return i →
        snd (update_task' now_title now_complete now task_id request user d)
          !! i = d !! i
        ∧ snd (toggle_task' now_complete now task_id user d) !! i = d !! i
        ∧ snd (delete_task' task_id user d) !! i = d !! i)
  ∧ (∀ i, is_Some (d !! i) →
          is_Some (snd (update_task' now_title now_complete now task_id
                          request user d) !! i)
          ∧ is_Some (snd (toggle_task' now_complete now task_id user d)
                       !! i)).
Proof.
  unfold update_task, toggle_task, delete_task, commit_task.
  destruct (bind_id task_id) as [tid|e]; [|done].
  destruct (select_task_of d tid user) as [task|] eqn:Hsel; [|done].
  split.
  - intros i Hne.
    assert (tid ≠ i) as Hi by (intros ->; done).
    split; [|split].
    + destruct (match UpdateTaskRequest.title request with
                | Some t => _ | None => _ end) as [t1|e]; [|done].
      destruct (match UpdateTaskRequest.is_completed request with
                | Some b => _ | None => _ end) as [t2|e]; [|done].
      simpl. by rewrite lookup_insert_ne.
    + destruct (if Task.is_completed task then _ else _) as [t1|e]; [|done].
      simpl. by rewrite lookup_insert_ne.
    + simpl. apply select_task_of_Some in Hsel as (r & _ & _ & ->). simpl.
      by rewrite lookup_delete_ne.
  - intros i Hsome. split.
    + destruct (match UpdateTaskRequest.title request with
                | Some t => _ | None => _ end) as [t1|e]; [|done].
      destruct (match UpdateTaskRequest.is_completed request with
                | Some b => _ | None => _ end) as [t2|e]; [|done].
      simpl. destruct (decide (tid = i)) as [->|Hi].
      * by rewrite lookup_insert_eq.
      * by rewrite lookup_insert_ne.
    + destruct (if Task.is_completed task then _ else _) as [t1|e]; [|done].
      simpl. destruct (decide (tid = i)) as [->|Hi].
      * by rewrite lookup_insert_eq.
      * by rewrite lookup_insert_ne.
Qed.

(** An update that asks for nothing changes nothing: with neither a title
    nor a completion flag in the request, [update_task] leaves the table
    exactly as it was in every outcome, [updated_at] of the task included;
    it returns exactly when its id binds to a task of the caller, and then
    the response is that task as it is stored. *)
Theorem update_task_empty_request (now_title now_complete now : datetime)
    (task_id : str) (user : str) (d : gmap N Task.row) :
  let r := update_task' now_title now_complete now task_id
             (UpdateTaskRequest.mk None None) user d in
  snd r = d
  ∧ (∀ resp, fst r = Return resp →
       ∃ tid row, bind_id task_id = Return tid
                  ∧ d !! tid = Some row
                  ∧ Task.row_user_id row = user
                  ∧ resp = _task_to_response (Task.of_row tid row))
  ∧ (∀ tid row, bind_id task_id = Return tid →
                d !! tid = Some row →
                Task.row_user_id row = user →
                fst r = Return (_task_to_response (Task.of_row tid row))).
Proof.
  intros r. subst r. unfold update_task, commit_task.
  destruct (bind_id task_id) as [tid|e].
  - destruct (select_task_of d tid user) as [task|] eqn:Hsel.
    + apply select_task_of_Some in Hsel as (row & Hrow & Hu & ->). simpl.
      split; [|split].
      * apply insert_id. rewrite Hrow. by destruct row.
      * intros resp [= <-]. by exists tid, row.
      * intros tid' row' [= <-] Hrow' _.
        rewrite Hrow in Hrow'. injection Hrow' as <-. by destruct row.
    + apply select_task_of_None in Hsel.
      split; [done|]. split; [done|].
      intros tid' row' [= <-] Hrow' Hu'. destruct Hsel. by exists row'.
  - split; [done|]. split; [done|]. by intros tid' row' [=].
Qed.

(** Two ways to reopen a task agree: unless the id binds to an open task
    of the caller, [toggle_task] and [update_task] with
    [is_completed = false] and no title do the same, whatever
    [mark_complete] and [update_title] do. When they return, the id was
    bound to a completed task of the caller: the flag is cleared and
    [updated_at] is the clock reading; the title, the owner and the
    creation time are kept, and the response shows the stored row. *)
Theorem task_reopen_agree (now_title now_complete now_complete' now : datetime)
    (task_id : str) (user : str) (d : gmap N Task.row) :
  (∀ tid row, bind_id task_id = Return tid →
              d !! tid = Some row →
              Task.row_user_id row = user →
              Task.row_is_completed row = true) →
  toggle_task' now_complete now task_id user d
  = update_task' now_title now_complete' now task_id
      (UpdateTaskRequest.mk None (Some false)) user d
  ∧ ∀ resp,
      fst (toggle_task' now_complete now task_id user d) = Return resp →
      ∃ tid row,
        bind_id task_id = Return tid
        ∧ d !! tid = Some row
        ∧ Task.row_user_id row = user
        ∧ resp = TaskResponse.mk tid (Task.row_title row) false
                   (Task.row_created_at row) now
        ∧ snd (toggle_task' now_complete now task_id user d)
          = <[tid := Task.mk_row user (Task.row_title row) false
                       (Task.row_created_at row) now]> d.
Proof.
  intros Hdone. unfold toggle_task, update_task, commit_task.
  destruct (bind_id task_id) as [tid|e]; [|done].
  destruct (select_task_of d tid user) as [task|] eqn:Hsel; [|done].
  apply select_task_of_Some in Hsel as (row & Hrow & Hu & ->).
  specialize (Hdone tid row eq_refl Hrow Hu). simpl. rewrite Hdone. simpl.
  split; [done|].
  intros resp [= <-]. exists tid, row. rewrite Hu. by repeat split.
Qed.

(** Every toggle that returns stamps the task: its id was bound to a task
    owned by the caller, the response names that task, its [updated_at] is
    the clock reading of the call, and the response shows the row that is
    stored afterwards. *)
Theorem toggle_task_stamps (now_complete now : datetime) (task_id : str)
    (user : str) (d : gmap N Task.row) (resp : TaskResponse.t) :
  fst (toggle_task' now_complete now task_id user d) = Return resp →
  ∃ tid,
    bind_id task_id = Return tid
    ∧ task_owned_by d tid user
    ∧ TaskResponse.id resp = tid
    ∧ TaskResponse.updated_at resp = now
    ∧ ∃ row,
        snd (toggle_task' now_complete now task_id user d) !! tid = Some row
        ∧ resp = _task_to_response (Task.of_row tid row)
        ∧ Task.row_updated_at row = now.
Proof.
  unfold toggle_task, commit_task.
  destruct (bind_id task_id) as [tid|e]; [|done].
  destruct (select_task_of d tid user) as [task|] eqn:Hsel; [|done].
  apply select_task_of_Some in Hsel as (r & Hr & Hu & ->).
  destruct (if Task.is_completed _ then _ else _) as [t1|e]; [|done].
  simpl. intros [= <-]. simpl. exists tid.
  split; [done|]. split; [by exists r|]. split; [done|]. split; [done|].
  eexists. rewrite lookup_insert_eq. done.
Qed.

End TaskProperties.

(** An instance: a title of blanks. *)
Lemma create_task_spec_witness :
  strip (str_of "   ") = []
  ∧ create_task sample_Task_init 9 4%N (str_of "   ") alice sample_tasks
    = (Raise title_empty, sample_tasks).
Proof.
  split; [reflexivity|].
  apply (proj1 (create_task_spec sample_Task_init 9 4%N (str_of "   ") alice
                  sample_tasks)).
  reflexivity.
Defined.

(** Two instances: bob addresses a task of alice through a column type
    that parses the text, and alice addresses her own task through one
    that binds no text. *)
Lemma task_mutations_check_owner_witness :
  (∀ tid, bind_parsing (str_of "1") = Return tid →
          ¬ task_owned_by sample_tasks tid bob)
  ∧ toggle_task bind_parsing sample_mark_complete 8 9 (str_of "1") bob
      sample_tasks
    = (Raise task_not_found, sample_tasks)
  ∧ toggle_task bind_objects_only sample_mark_complete 8 9 (str_of "1") alice
      sample_tasks
    = (Raise statement_error, sample_tasks).
Proof.
  assert (∀ tid, bind_parsing (str_of "1") = Return tid →
                 ¬ task_owned_by sample_tasks tid bob) as H.
  { intros tid Hb (r & Hr & Hu).
    assert (tid = 1%N) as -> by (vm_compute in Hb; by injection Hb).
    assert (r = Task.mk_row alice (str_of "buy milk") true 1 5) as ->.
    { vm_compute in Hr. by injection Hr. }
    vm_compute in Hu. discriminate Hu. }
  split; [exact H|]. split.
  - destruct (task_mutations_check_owner bind_parsing sample_update_title
                sample_mark_complete 7 8 9 (str_of "1")
                (UpdateTaskRequest.mk None None) bob sample_tasks H)
      as (e & _ & Htoggle & _ & Hbound & _).
    rewrite Htoggle. by rewrite (Hbound 1%N eq_refl).
  - destruct (task_mutations_check_owner bind_objects_only
                sample_update_title sample_mark_complete 7 8 9 (str_of "1")
                (UpdateTaskRequest.mk None None) alice sample_tasks)
      as (e & _ & Htoggle & _ & _ & Hraise).
    + intros tid Hb. discriminate Hb.
    + rewrite Htoggle. by rewrite (Hraise statement_error eq_refl).
Defined.

(** An instance, with a column type that parses the text: alice reopens
    her completed task. *)
Lemma task_reopen_agree_witness :
  (∀ tid row, bind_parsing (str_of "1") = Return tid →
              sample_tasks !! tid = Some row →
              Task.row_user_id row = alice →
              Task.row_is_completed row = true)
  ∧ toggle_task bind_parsing sample_mark_complete 8 9 (str_of "1") alice
      sample_tasks
    = update_task bind_parsing sample_update_title sample_mark_complete
        7 8 9 (str_of "1") (UpdateTaskRequest.mk None (Some false)) alice
        sample_tasks
  ∧ fst (toggle_task bind_parsing sample_mark_complete 8 9 (str_of "1") alice
           sample_tasks)
    = Return (TaskResponse.mk 1%N (str_of "buy milk") false 1 9).
Proof.
  assert (∀ tid row, bind_parsing (str_of "1") = Return tid →
                     sample_tasks !! tid = Some row →
                     Task.row_user_id row = alice →
                     Task.row_is_completed row = true) as H.
  { intros tid row Hb Hrow _.
    assert (tid = 1%N) as -> by (vm_compute in Hb; by injection Hb).
    vm_compute in Hrow. by injection Hrow as <-. }
  split; [exact H|].
  split; [|reflexivity].
  exact (proj1 (task_reopen_agree bind_parsing sample_update_title
                  sample_mark_complete 7 8 8 9 (str_of "1") alice
                  sample_tasks H)).
Defined.

(** An instance, with a column type that parses the text: alice toggles
    her open task. *)
Lemma toggle_task_stamps_witness :
  fst (toggle_task bind_parsing sample_mark_complete 8 9 (str_of "2") alice
         sample_tasks)
  = Return (TaskResponse.mk 2%N (str_of "call mum") true 2 9)
  ∧ ∃ tid,
      bind_parsing (str_of "2") = Return tid
      ∧ task_owned_by sample_tasks tid alice
      ∧ TaskResponse.updated_at
          (TaskResponse.mk 2%N (str_of "call mum") true 2 9) = 9.
Proof.
  assert (fst (toggle_task bind_parsing sample_mark_complete 8 9 (str_of "2")
                 alice sample_tasks)
          = Return (TaskResponse.mk 2%N (str_of "call mum") true 2 9)) as H
    by (vm_compute; reflexivity).
  split; [exact H|].
  destruct (toggle_task_stamps bind_parsing sample_mark_complete 8 9
              (str_of "2") alice sample_tasks _ H)
    as (tid & Hb & Ho & _ & Hup & _).
  by exists tid.
Defined.
